(** * c_helper: the cash-flow backsolvers of [ext/c_helper/backsolve_cf.c]

    A shallow embedding of the C extension over Rocq's primitive binary64
    floats, which are the IEEE 754 doubles the C code computes with.

    - a C [double] is a [float]; [+ - * /] and the comparisons are the
      primitive operations, each rounding to binary64 (as compiled for SSE2:
      no extended precision, no fused multiply-add), so every definition
      below evaluates;
    - a C [long] is a [Z]; the only [long] that is ever incremented is
      [trials], and it stays below [max_tries], so it never wraps;
    - a [double *] buffer of [num_cfs] cells is a [list float] read by index;
    - [pow] comes from libm and is a parameter of the IRR functions;
    - the Ruby side of the two exported functions is a value of [rb_result]:
      a Float, or a raised exception with its class and message. *)

From Stdlib Require Import String ZArith List Bool Lia.
From Stdlib Require Import Floats.
Import ListNotations.

Set Warnings "-inexact-float".

Open Scope float_scope.

(** ** Doubles *)

Definition double := float.

(** [#define ABS(x) (((x)<0.0) ? (-(x)) : (x))] *)
Definition ABS (x : double) : double := if x <? 0.0 then - x else x.

(** [a > b] on doubles is [b < a]. *)
Definition gtb (a b : double) : bool := b <? a.

(** The sentinels of the C core. *)
Definition EMPTY_STREAM : double := -997.0.
Definition NON_CONVERGENCE : double := -998.0.
Definition DEGENERATE_STEP : double := -999.0.

(** ** Buffers

    [rd a t] is the C expression [a[t]].  Outside the buffer the C read is
    undefined; the exported functions allocate and fill exactly [num_cfs]
    cells, so the core never reads there, and the model answers [nan]. *)
Definition rd (a : list double) (t : nat) : double := nth t a nan.

(** ** [_compute_pv] *)

(** The locals of [_compute_pv] that live across loop iterations. *)
Record pv_locals := mk_pv_locals {
  discount_factor : double;
  prev_cumul_date : double;
  cumul_pv : double
}.

Definition pv_init : pv_locals :=
  {| discount_factor := 1.0; prev_cumul_date := 0.0; cumul_pv := 0.0 |}.

(** One run of the body of the [for] loop, at index [t]. *)
Definition pv_body (cfs dates libor : list double)
    (year_convention spread : double) (l : pv_locals) (t : nat) : pv_locals :=
  let discount_rate := rd libor t + spread in
  let df := discount_factor l
            / (1.0 + discount_rate * (rd dates t - prev_cumul_date l) / year_convention) in
  {| discount_factor := df;
     prev_cumul_date := rd dates t;
     cumul_pv := cumul_pv l + rd cfs t * df |}.

(** [for (t = 0; t < num_cfs; t++)]: the indices the loop visits. *)
Definition indices (num_cfs : Z) : list nat := seq 0 (Z.to_nat num_cfs).

Definition _compute_pv (cfs dates libor : list double) (num_cfs : Z)
    (is_clean : bool) (accrued_interest year_convention spread : double) : double :=
  if (0 <? num_cfs)%Z then
    let l := fold_left (pv_body cfs dates libor year_convention spread)
                       (indices num_cfs) pv_init in
    if is_clean then cumul_pv l - accrued_interest else cumul_pv l
  else EMPTY_STREAM.

(** ** The secant loop

    [_backsolve_cf] and [_backsolve_irr] contain the same loop, character for
    character, around two different present-value functions.  The loop is
    modelled once, over the residual function [f x = target_px - PV x]. *)

Record secant_locals := mk_secant_locals {
  x_n_minus_1 : double;
  x_n : double;
  f_n_minus_1 : double;
  f_n : double;
  trials : Z
}.

(** How the [while] statement was left. *)
Inductive loop_exit :=
| ReturnedInLoop (l : secant_locals)   (* [return -999.0] in the body *)
| GuardFailed (l : secant_locals).     (* the [while] condition was false *)

Section Secant.
Variable f : double -> double.
Variable res : double.
Variable max_tries : Z.

(** [ABS(f_n) > res && trials < max_tries] *)
Definition guard (l : secant_locals) : bool :=
  gtb (ABS (f_n l)) res && (trials l <? max_tries)%Z.

(** [f_n == f_n_minus_1] *)
Definition degenerate (l : secant_locals) : bool := f_n l =? f_n_minus_1 l.

(** The body of the loop after the degenerate test. *)
Definition secant_update (l : secant_locals) : secant_locals :=
  let x_n_plus_1 :=
    x_n l - f_n l * (x_n l - x_n_minus_1 l) / (f_n l - f_n_minus_1 l) in
  {| x_n_minus_1 := x_n l;
     x_n := x_n_plus_1;
     f_n_minus_1 := f_n l;
     f_n := f x_n_plus_1;
     trials := (trials l + 1)%Z |}.

(** The [while] statement, with [fuel] bounding the number of body runs;
    [None] when the fuel is used up before the statement is left. *)
Fixpoint secant_while (fuel : nat) (l : secant_locals) : option loop_exit :=
  if guard l then
    if degenerate l then Some (ReturnedInLoop l)
    else match fuel with
         | O => None
         | S fuel' => secant_while fuel' (secant_update l)
         end
  else Some (GuardFailed l).

(** The locals on entry to the loop. *)
Definition secant_init : secant_locals :=
  let x0 := 0.06 in
  let x1 := x0 + 0.0025 in
  {| x_n_minus_1 := x0; x_n := x1; f_n_minus_1 := f x0; f_n := f x1; trials := 0 |}.

(** What the function returns for each way of leaving the loop. *)
Definition secant_return (e : loop_exit) : double :=
  match e with
  | ReturnedInLoop _ => DEGENERATE_STEP
  | GuardFailed l =>
      if (trials l >=? max_tries)%Z then NON_CONVERGENCE else x_n l
  end.

Definition secant_run (fuel : nat) : option loop_exit :=
  secant_while fuel secant_init.

(** Fuel that always suffices: the guard allows at most [max_tries] runs. *)
Definition secant_fuel : nat := Z.to_nat max_tries.

Definition secant_solve : double :=
  match secant_run secant_fuel with
  | Some e => secant_return e
  | None => nan
  end.
End Secant.

(** ** [_backsolve_cf] *)

Definition cf_residual (cfs dates libor : list double) (num_cfs : Z)
    (target_px : double) (is_clean : bool)
    (accrued_interest year_convention : double) (x : double) : double :=
  target_px - _compute_pv cfs dates libor num_cfs is_clean accrued_interest year_convention x.

Definition _backsolve_cf (cfs dates libor : list double) (num_cfs : Z)
    (target_px res : double) (max_tries : Z) (is_clean : bool)
    (accrued_interest year_convention : double) : double :=
  secant_solve
    (cf_residual cfs dates libor num_cfs target_px is_clean accrued_interest year_convention)
    res max_tries.

(** ** [_compute_pv_for_irr] and [_backsolve_irr]

    [pow] is libm's; the functions below take it as a parameter. *)

Section IRR.
Variable pow : double -> double -> double.

(** One run of the body of the [for] loop, at index [t]; of the locals only
    [cumul_pv] is carried over, [discount_factor] is overwritten. *)
Definition irr_body (cfs dates : list double) (orig_date irr : double)
    (cumul : double) (t : nat) : double :=
  let year_convention := 365.0 in
  let df := 1.0 / pow (1.0 + irr) ((rd dates t - orig_date) / year_convention) in
  cumul + rd cfs t * df.

Definition _compute_pv_for_irr (cfs dates : list double) (num_cfs : Z)
    (is_clean : bool) (accrued_interest irr : double) : double :=
  if (0 <? num_cfs)%Z then
    let orig_date := rd dates 0 in
    let cumul := fold_left (irr_body cfs dates orig_date irr) (indices num_cfs) 0.0 in
    if is_clean then cumul - accrued_interest else cumul
  else EMPTY_STREAM.

Definition irr_residual (cfs dates : list double) (num_cfs : Z)
    (is_clean : bool) (accrued_interest : double) (x : double) : double :=
  let target_px := 0.0 in
  target_px - _compute_pv_for_irr cfs dates num_cfs is_clean accrued_interest x.

Definition _backsolve_irr (cfs dates : list double) (num_cfs : Z)
    (res : double) (max_tries : Z) (is_clean : bool)
    (accrued_interest : double) : double :=
  secant_solve (irr_residual cfs dates num_cfs is_clean accrued_interest) res max_tries.
End IRR.

(** ** The exported functions [backsolve_cf] and [backsolve_irr]

    The arguments have passed [Check_Type]: the arrays are Ruby arrays of
    numbers, [num_cfs] and [max_tries] are Fixnums, the others Floats, and
    [is_clean] is [true] exactly when the Ruby value is [true].  [malloc] is
    taken to succeed. *)

Inductive rb_class := eRuntimeError | eZeroDivError | eTypeError.

Inductive rb_result :=
| RbFloat (x : double)
| RbRaise (c : rb_class) (msg : string).

Definition msg_no_entry : string :=
  "valid array of cash flows must have at least one entry".
Definition msg_dates : string :=
  "dates must contain a list of monotonically increasing values, starting at a value > 0".
Definition msg_degenerate : string :=
  "value doesn't change when yield is sensitized".
Definition msg_converge : string := "failed to converge".
(** Raised by the host's [NUM2DBL] on the [nil] that [rb_ary_entry] gives
    past the end of an array. *)
Definition msg_nil : string := "can't convert nil into Float".

(** [rb_ary_entry a i]: [None] is Ruby's [nil]. *)
Definition rb_ary_entry (a : list double) (i : nat) : option double := nth_error a i.

(** The buffers being filled, and [prev_date]. *)
Record cf_buffers := mk_cf_buffers {
  c_cfs : list double;
  c_dates : list double;
  c_libor : list double;
  prev_date : double
}.

Definition cf_buffers_init : cf_buffers :=
  {| c_cfs := []; c_dates := []; c_libor := []; prev_date := 0.0 |}.

(** The marshalling loop of [backsolve_cf] over the indices [idx]: the
    exception raised, or the filled buffers. *)
Fixpoint marshal_cf (cfs dates libor : list double) (idx : list nat)
    (b : cf_buffers) : (rb_class * string) + cf_buffers :=
  match idx with
  | [] => inr b
  | i :: idx' =>
      match rb_ary_entry cfs i with
      | None => inl (eTypeError, msg_nil)
      | Some c =>
          match rb_ary_entry dates i with
          | None => inl (eTypeError, msg_nil)
          | Some d =>
              if d <=? prev_date b then inl (eRuntimeError, msg_dates)
              else
                match rb_ary_entry libor i with
                | None => inl (eTypeError, msg_nil)
                | Some r =>
                    marshal_cf cfs dates libor idx'
                      {| c_cfs := c_cfs b ++ [c];
                         c_dates := c_dates b ++ [d];
                         c_libor := c_libor b ++ [r];
                         prev_date := d |}
                end
          end
      end
  end.

(** The test of [c_result] after the core has returned. *)
Definition rb_of_c_result (c_result : double) : rb_result :=
  if c_result =? DEGENERATE_STEP then RbRaise eZeroDivError msg_degenerate
  else if c_result =? NON_CONVERGENCE then RbRaise eRuntimeError msg_converge
  else RbFloat c_result.

Definition backsolve_cf (cfs dates libor : list double) (num_cfs : Z)
    (target_px res : double) (max_tries : Z) (is_clean : bool)
    (accrued_interest year_convention : double) : rb_result :=
  if (num_cfs <? 1)%Z then RbRaise eRuntimeError msg_no_entry
  else
    match marshal_cf cfs dates libor (indices num_cfs) cf_buffers_init with
    | inl (c, msg) => RbRaise c msg
    | inr b =>
        rb_of_c_result
          (_backsolve_cf (c_cfs b) (c_dates b) (c_libor b) num_cfs
             target_px res max_tries is_clean accrued_interest year_convention)
    end.

(** The marshalling loop of [backsolve_irr]: as above, without [libor]
    (the [c_libor] field stays empty). *)
Fixpoint marshal_irr (cfs dates : list double) (idx : list nat)
    (b : cf_buffers) : (rb_class * string) + cf_buffers :=
  match idx with
  | [] => inr b
  | i :: idx' =>
      match rb_ary_entry cfs i with
      | None => inl (eTypeError, msg_nil)
      | Some c =>
          match rb_ary_entry dates i with
          | None => inl (eTypeError, msg_nil)
          | Some d =>
              if d <=? prev_date b then inl (eRuntimeError, msg_dates)
              else
                marshal_irr cfs dates idx'
                  {| c_cfs := c_cfs b ++ [c];
                     c_dates := c_dates b ++ [d];
                     c_libor := c_libor b;
                     prev_date := d |}
          end
      end
  end.

Definition backsolve_irr (pow : double -> double -> double)
    (cfs dates : list double) (num_cfs : Z)
    (res : double) (max_tries : Z) (is_clean : bool)
    (accrued_interest : double) : rb_result :=
  if (num_cfs <? 1)%Z then RbRaise eRuntimeError msg_no_entry
  else
    match marshal_irr cfs dates (indices num_cfs) cf_buffers_init with
    | inl (c, msg) => RbRaise c msg
    | inr b =>
        rb_of_c_result
          (_backsolve_irr pow (c_cfs b) (c_dates b) num_cfs
             res max_tries is_clean accrued_interest)
    end.

(** ** The outcomes the return value encodes

    A [double] returned by the core stands for one of three outcomes, told
    apart by which [return] statement ran; [outcome_of] reads them off the
    way the loop was left and [encode] is the [double] the C function hands
    back for each. *)

Inductive outcome :=
| Solved (x : double)
| DegenerateStep
| NonConvergence.

Definition outcome_of (max_tries : Z) (e : loop_exit) : outcome :=
  match e with
  | ReturnedInLoop _ => DegenerateStep
  | GuardFailed l => if (trials l >=? max_tries)%Z then NonConvergence else Solved (x_n l)
  end.

Definition encode (o : outcome) : double :=
  match o with
  | Solved x => x
  | DegenerateStep => DEGENERATE_STEP
  | NonConvergence => NON_CONVERGENCE
  end.

(** The locals when the loop was left, and the number of secant updates
    made until then ([trials] counts them). *)
Definition exit_locals (e : loop_exit) : secant_locals :=
  match e with ReturnedInLoop l => l | GuardFailed l => l end.

Definition updates_done (e : loop_exit) : Z := trials (exit_locals e).

Definition secant_outcome (f : double -> double) (res : double) (max_tries : Z)
    : option outcome :=
  option_map (outcome_of max_tries) (secant_run f res max_tries (secant_fuel max_tries)).

(** ** The stream of the specification

    A cash-flow stream is a sequence of entries; the C arrays are its
    columns. *)

Record entry := mk_entry {
  amount : double;
  dayOffset : double;
  referenceRate : double
}.

Definition stream := list entry.

Definition amounts (s : stream) : list double := map amount s.
Definition dayOffsets (s : stream) : list double := map dayOffset s.
Definition referenceRates (s : stream) : list double := map referenceRate s.
Definition entries (s : stream) : Z := Z.of_nat (length s).

(** Clean pricing: accrued interest is subtracted exactly when the flag is
    set. *)
Definition clean_adjust (is_clean : bool) (accrued_interest pv : double) : double :=
  if is_clean then pv - accrued_interest else pv.

(** The recurrence of the spread model as the specification words it: the
    running discount factor, the previous day offset and the accumulated
    present value, entry by entry. *)
Fixpoint spread_recurrence (yearConvention spread : double) (s : stream)
    (discountFactor previousDayOffset presentValue : double) : double :=
  match s with
  | [] => presentValue
  | e :: s' =>
      let periodRate := referenceRate e + spread in
      let discountFactor' :=
        discountFactor
        / (1 + periodRate * (dayOffset e - previousDayOffset) / yearConvention) in
      spread_recurrence yearConvention spread s'
        discountFactor' (dayOffset e) (presentValue + amount e * discountFactor')
  end.

Definition DiscountEngine_spread (s : stream) (is_clean : bool)
    (accrued_interest yearConvention spread : double) : double :=
  clean_adjust is_clean accrued_interest
    (spread_recurrence yearConvention spread s 1 0 0).

(** The IRR model as the specification words it: each entry is discounted
    by [1 / (1 + yield)^((dayOffset - firstDayOffset) / 365)], and the
    products are summed in stream order from [0] (a sum of doubles has to fix
    an order). *)
Definition irr_discount_factor (pow : double -> double -> double)
    (yield firstDayOffset : double) (e : entry) : double :=
  1 / pow (1 + yield) ((dayOffset e - firstDayOffset) / 365).

Definition irr_sum (pow : double -> double -> double)
    (yield firstDayOffset : double) (s : stream) (from : double) : double :=
  fold_left
    (fun acc e => acc + amount e * irr_discount_factor pow yield firstDayOffset e)
    s from.

Definition DiscountEngine_irr (pow : double -> double -> double) (s : stream)
    (is_clean : bool) (accrued_interest yield : double) : double :=
  match s with
  | [] => EMPTY_STREAM
  | e0 :: _ =>
      clean_adjust is_clean accrued_interest (irr_sum pow yield (dayOffset e0) s 0)
  end.

(** Day offsets strictly increasing, the first one above [prev]. *)
Fixpoint strictly_increasing_from (prev : double) (ds : list double) : bool :=
  match ds with
  | [] => true
  | d :: ds' => (prev <? d) && strictly_increasing_from d ds'
  end.

(** What the marshalling loops let through: no offset at or below the one
    before it, [prev] before the first (the test [c_dates[i] <= prev_date]). *)
Fixpoint offsets_accepted (prev : double) (ds : list double) : bool :=
  match ds with
  | [] => true
  | d :: ds' => negb (d <=? prev) && offsets_accepted d ds'
  end.

(** No offset is a NaN. *)
Definition all_numbers (ds : list double) : bool := forallb (fun d => d =? d) ds.

(** The preconditions the specification lists for the two entry points. *)
Definition spec_preconditions (n_cfs n_dates n_libor : nat) (dates : list double)
    (num_cfs : Z) (res : double) (max_tries : Z) : bool :=
  (n_cfs =? n_dates)%nat && (n_dates =? n_libor)%nat
  && (Z.of_nat n_cfs =? num_cfs)%Z && (1 <=? num_cfs)%Z
  && strictly_increasing_from 0 dates
  && (0 <=? res) && (1 <=? max_tries)%Z.

(** The two input-validation failures of the exported functions. *)
Definition is_validation_failure (r : rb_result) : bool :=
  match r with
  | RbRaise eRuntimeError msg => String.eqb msg msg_no_entry || String.eqb msg msg_dates
  | _ => false
  end.

(** ** A stand-in for [pow] to run the IRR functions with

    libm is not part of the repository.  [pow_whole] computes what [pow]
    gives on whole exponents from [0] to [64]: [1] for exponent [0] (C99
    F.10.4.4: [pow(x, ±0)] is [1] for every [x], a NaN included) and the
    repeated product otherwise; it answers [nan] elsewhere.  It only serves
    to evaluate the IRR functions on concrete streams. *)
Fixpoint pow_upto (fuel : nat) (x y acc : double) : double :=
  if y =? 0 then acc
  else match fuel with
       | O => nan
       | S fuel' => if y <? 1 then nan else pow_upto fuel' x (y - 1) (acc * x)
       end.

Definition pow_whole (x y : double) : double := pow_upto 64 x y 1.

(** [ABS] on [spec_float]: the sign of a non-zero number is cleared, a zero
    keeps its sign (the macro tests [x < 0.0]). *)
Definition SF_ABS (x : spec_float) : spec_float :=
  match x with
  | S754_finite _ m e => S754_finite false m e
  | S754_infinity _ => S754_infinity false
  | _ => x
  end.

(** ** Definitions for the further properties *)

(** The buffer [buf] holds the first [k] entries of the array [src], which
    has that many. *)
Definition filled_upto (src buf : list double) (k : nat) : Prop :=
  buf = firstn k src /\ (k <= List.length src)%nat.

(** The day offsets copied so far passed the date test, and [prev_date] is
    the last of them ([0.0] when there is none). *)
Definition dates_checked (b : cf_buffers) : Prop :=
  offsets_accepted 0 (c_dates b) = true /\ prev_date b = last (c_dates b) 0.

(** An entry with a NaN among its three numbers, or a NaN amount. *)
Definition entry_has_nan (e : entry) : bool :=
  is_nan (amount e) || is_nan (dayOffset e) || is_nan (referenceRate e).

Definition amount_is_nan (e : entry) : bool := is_nan (amount e).

(** The stream whose columns are three arrays, up to the shortest. *)
Fixpoint stream_of_columns (cfs dates libor : list double) : stream :=
  match cfs, dates, libor with
  | c :: cfs', d :: dates', r :: libor' =>
      mk_entry c d r :: stream_of_columns cfs' dates' libor'
  | _, _, _ => []
  end.

(** An operation with a NaN operand gives the NaN. *)
Ltac nan_absorbs op_spec x :=
  apply Prim2SF_inj; rewrite op_spec; change (Prim2SF nan) with S754_nan;
  destruct (Prim2SF x); reflexivity.

(** Case analysis on the [spec_float]s of a double and of the tolerance,
    for the facts on the loop's test [ABS(v) > res]. *)
Ltac tolerance_test_cases v res :=
  unfold SFltb;
  destruct (Prim2SF v) as [s|s| |s m e], (Prim2SF res) as [t|t| |t n k];
  simpl; try reflexivity; destruct s; reflexivity.

(** * Facts about doubles

    Proved from the specification of the primitive operations
    ([FloatAxioms]) by going to [spec_float]. *)

Lemma SFcompare_antisym (x y : spec_float) :
  SFcompare y x = option_map CompOpp (SFcompare x y).
Proof.
  destruct x as [sx|sx| |sx mx ex], y as [sy|sy| |sy my ey]; simpl;
    try reflexivity;
    try (destruct sx; reflexivity); try (destruct sy; reflexivity);
    try (destruct sx, sy; reflexivity).
  destruct sx, sy; simpl; try reflexivity;
    rewrite (Z.compare_antisym ex ey);
    destruct (ex ?= ey)%Z; simpl; try reflexivity;
    rewrite (Pos.compare_cont_antisym mx my Eq); simpl;
    try rewrite CompOpp_involutive; reflexivity.
Qed.

Lemma SFcompare_refl (x : spec_float) :
  x = S754_nan \/ SFcompare x x = Some Eq.
Proof.
  destruct x as [s|s| |s m e]; simpl; auto; right.
  - destruct s; reflexivity.
  - destruct s; rewrite Z.compare_refl, Pos.compare_cont_refl; reflexivity.
Qed.

Lemma Prim2SF_nan (x : double) : Prim2SF x = S754_nan -> x = nan.
Proof. intros H. apply Prim2SF_inj. rewrite H. reflexivity. Qed.

(** A double equals itself under [==] unless it is the NaN. *)
Lemma eqb_refl_or_nan (x : double) : (x =? x) = true \/ x = nan.
Proof.
  rewrite eqb_spec. unfold SFeqb.
  destruct (SFcompare_refl (Prim2SF x)) as [H|H].
  - right. now apply Prim2SF_nan.
  - left. now rewrite H.
Qed.

Lemma leb_gtb_false (a b : double) : (a <=? b) = true -> gtb a b = false.
Proof.
  unfold gtb. rewrite leb_spec, ltb_spec. unfold SFleb, SFltb.
  rewrite (SFcompare_antisym (Prim2SF a) (Prim2SF b)).
  destruct (SFcompare (Prim2SF a) (Prim2SF b)) as [[]|]; simpl; congruence.
Qed.

Lemma gtb_false_leb (a b : double) :
  (a =? a) = true -> (b =? b) = true -> gtb a b = false -> (a <=? b) = true.
Proof.
  unfold gtb. rewrite !eqb_spec, leb_spec, ltb_spec. unfold SFeqb, SFleb, SFltb.
  rewrite (SFcompare_antisym (Prim2SF a) (Prim2SF b)).
  destruct (Prim2SF a) as [sx|sx| |sx mx ex], (Prim2SF b) as [sy|sy| |sy my ey];
    simpl; try congruence;
    try (destruct sx; simpl; congruence); try (destruct sy; simpl; congruence);
    try (destruct sx, sy; simpl; congruence).
  intros _ _.
  destruct sx, sy; simpl; try congruence;
  destruct (ex ?= ey)%Z; simpl; try congruence;
  destruct (Pos.compare_cont Eq mx my); simpl; congruence.
Qed.

Lemma ABS_spec (x : double) : Prim2SF (ABS x) = SF_ABS (Prim2SF x).
Proof.
  unfold ABS. rewrite ltb_spec. change (Prim2SF 0.0) with (S754_zero false).
  destruct (Prim2SF x) as [s|s| |s m e] eqn:E; unfold SFltb; simpl;
    try (rewrite E; reflexivity).
  - destruct s; simpl; [rewrite opp_spec, E | rewrite E]; reflexivity.
  - destruct s; simpl; [rewrite opp_spec, E | rewrite E]; reflexivity.
Qed.

(** Whatever exceeds a tolerance under [ABS] is a number. *)
Lemma gtb_ABS_number (x res : double) : gtb (ABS x) res = true -> (x =? x) = true.
Proof.
  intros H. destruct (eqb_refl_or_nan x) as [E|E]; [exact E|].
  subst x. unfold gtb in H. rewrite ltb_spec, ABS_spec in H.
  change (Prim2SF nan) with S754_nan in H. unfold SFltb in H.
  destruct (Prim2SF res); simpl in H; discriminate.
Qed.

Lemma ABS_number (x : double) : (x =? x) = true -> (ABS x =? ABS x) = true.
Proof.
  rewrite !eqb_spec, ABS_spec. unfold SFeqb.
  destruct (Prim2SF x) as [s|s| |s m e]; simpl; try congruence.
  - intros _. rewrite Z.compare_refl, Pos.compare_cont_refl. reflexivity.
Qed.

Lemma add_0_l (a : double) : a <> neg_zero -> 0 + a = a.
Proof.
  intros Ha. apply Prim2SF_inj. rewrite add_spec.
  change (Prim2SF 0) with (S754_zero false).
  assert (Hz : Prim2SF a <> S754_zero true).
  { intros E. apply Ha. apply Prim2SF_inj. rewrite E. reflexivity. }
  destruct (Prim2SF a) as [s|s| |s m e]; simpl; try reflexivity.
  destruct s; [congruence | reflexivity].
Qed.

Lemma sub_diag_finite (d : double) : is_finite d = true -> d - d = 0.
Proof.
  intros Hf. apply Prim2SF_inj. rewrite sub_spec.
  change (Prim2SF 0) with (S754_zero false).
  unfold is_finite, is_nan, is_infinity in Hf.
  rewrite !eqb_spec, abs_spec in Hf.
  change (Prim2SF infinity) with (S754_infinity false) in Hf.
  destruct (Prim2SF d) as [s|s| |s m e].
  - destruct s; reflexivity.
  - destruct s; discriminate.
  - discriminate.
  - unfold SF64sub. cbn [SFsub]. rewrite Z.sub_diag. reflexivity.
Qed.

Lemma SFmul_1_r (x : spec_float) :
  valid_binary x = true ->
  SFmul prec emax x (S754_finite false 4503599627370496 (-52)) = x.
Proof.
  destruct x as [s|s| |s m e]; simpl; intros Hv;
    try (destruct s; reflexivity); try reflexivity.
  unfold bounded, canonical_mantissa in Hv.
  apply andb_true_iff in Hv. destruct Hv as [Hc He].
  apply Z.eqb_eq in Hc.
  rewrite (Pos.mul_comm m). cbn [Pos.mul].
  unfold binary_round_aux.
  assert (E1 : shr_fexp prec emax
           (Z.pos m~0~0~0~0~0~0~0~0~0~0~0~0~0~0~0~0~0~0~0~0~0~0~0~0~0~0~0~0~0~0~0~0~0~0~0~0~0~0~0~0~0~0~0~0~0~0~0~0~0~0~0~0)
           (e + -52) loc_Exact
           = ({| shr_m := Z.pos m; shr_r := false; shr_s := false |}, e)).
  { unfold shr_fexp. cbn [Zdigits2 digits2_pos].
    replace (fexp prec emax _) with e.
    2:{ rewrite <- Hc at 1. f_equal. lia. }
    replace (e - (e + -52))%Z with 52%Z by lia.
    unfold shr. cbn [shr_record_of_loc iter_pos shr_1 orb].
    f_equal. lia. }
  rewrite E1. cbn [shr_m loc_of_shr_record round_nearest_even].
  assert (E2 : shr_fexp prec emax (Z.pos m) e loc_Exact
           = ({| shr_m := Z.pos m; shr_r := false; shr_s := false |}, e)).
  { unfold shr_fexp. cbn [Zdigits2]. rewrite Hc. rewrite Z.sub_diag. reflexivity. }
  rewrite E2. cbn [shr_m]. rewrite He. destruct s; reflexivity.
Qed.

(** Multiplying by [1.0] is exact. *)
Lemma mul_1_r (a : double) : a * 1 = a.
Proof.
  apply Prim2SF_inj. rewrite mul_spec.
  change (Prim2SF 1) with (S754_finite false 4503599627370496 (-52)).
  apply SFmul_1_r. apply Prim2SF_valid.
Qed.

(** The loop's test [ABS(v) > res] does not see the sign of [v]. *)
Lemma gtb_ABS_zero_sub (v res : double) : gtb (ABS (0 - v)) res = gtb (ABS v) res.
Proof.
  unfold gtb. rewrite !ltb_spec, !ABS_spec, sub_spec.
  change (Prim2SF 0) with (S754_zero false).
  tolerance_test_cases v res.
Qed.

(** Nor whether a zero amount was [-0.0] before accrued interest came off. *)
Lemma gtb_ABS_zero_sign (acc res : double) :
  gtb (ABS (0 - acc)) res = gtb (ABS (neg_zero - acc)) res.
Proof.
  unfold gtb. rewrite !ltb_spec, !ABS_spec, !sub_spec.
  change (Prim2SF 0) with (S754_zero false).
  change (Prim2SF neg_zero) with (S754_zero true).
  tolerance_test_cases acc res.
Qed.

Lemma gtb_ABS_add_0 (a res : double) : gtb (ABS (0 + a)) res = gtb (ABS a) res.
Proof.
  unfold gtb. rewrite !ltb_spec, !ABS_spec, add_spec.
  change (Prim2SF 0) with (S754_zero false).
  tolerance_test_cases a res.
Qed.

(** * The secant loop *)

Section SecantFacts.
Variable f : double -> double.
Variable res : double.
Variable max_tries : Z.

Local Abbreviation while := (secant_while f res max_tries).
Local Abbreviation grd := (guard res max_tries).
Local Abbreviation upd := (secant_update f).

Lemma secant_while_unfold (fuel : nat) (l : secant_locals) :
  while fuel l =
  if grd l then
    if degenerate l then Some (ReturnedInLoop l)
    else match fuel with
         | O => None
         | S fuel' => while fuel' (upd l)
         end
  else Some (GuardFailed l).
Proof. destruct fuel; reflexivity. Qed.

(** More fuel does not change a finished run. *)
Lemma secant_while_more_fuel (fuel : nat) :
  forall (l : secant_locals) (e : loop_exit) (fuel' : nat),
    while fuel l = Some e -> (fuel <= fuel')%nat -> while fuel' l = Some e.
Proof.
  induction fuel as [|k IH]; intros l e fuel' H Hle;
    rewrite secant_while_unfold in H; rewrite secant_while_unfold;
    destruct (grd l); try exact H; destruct (degenerate l); try exact H.
  - discriminate.
  - destruct fuel' as [|k']; [lia|]. apply IH; [exact H | lia].
Qed.

(** The guard bounds the runs of the body: the distance of [trials] to
    [max_tries] is fuel enough. *)
Lemma secant_while_total (fuel : nat) :
  forall l : secant_locals,
    (Z.to_nat (max_tries - trials l) <= fuel)%nat ->
    exists e, while fuel l = Some e.
Proof.
  induction fuel as [|k IH]; intros l Hfuel; rewrite secant_while_unfold;
    destruct (grd l) eqn:G; try (eexists; reflexivity);
    destruct (degenerate l); try (eexists; reflexivity);
    unfold guard in G; apply andb_true_iff in G; destruct G as [_ G];
    apply Z.ltb_lt in G.
  - lia.
  - apply IH. simpl. lia.
Qed.

(** [trials] only grows, and never beyond [max_tries]. *)
Lemma secant_while_trials (fuel : nat) :
  forall (l : secant_locals) (e : loop_exit),
    while fuel l = Some e ->
    (trials l <= updates_done e <= Z.max (trials l) max_tries)%Z.
Proof.
  induction fuel as [|k IH]; intros l e H; rewrite secant_while_unfold in H;
    destruct (grd l) eqn:G;
    try (injection H as <-; unfold updates_done; simpl; lia);
    destruct (degenerate l);
    try (injection H as <-; unfold updates_done; simpl; lia).
  - discriminate.
  - unfold guard in G. apply andb_true_iff in G. destruct G as [_ G].
    apply Z.ltb_lt in G. apply IH in H. simpl in H. lia.
Qed.

(** How the loop can be left. *)
Lemma secant_while_exit (fuel : nat) :
  forall (l : secant_locals) (e : loop_exit),
    while fuel l = Some e ->
    match e with
    | ReturnedInLoop l' => grd l' = true /\ degenerate l' = true
    | GuardFailed l' => grd l' = false
    end.
Proof.
  induction fuel as [|k IH]; intros l e H; rewrite secant_while_unfold in H;
    destruct (grd l) eqn:G; try (injection H as <-; exact G);
    destruct (degenerate l) eqn:D; try (injection H as <-; split; assumption).
  - discriminate.
  - apply IH in H. exact H.
Qed.

(** [f_n] is the residual at [x_n] throughout. *)
Lemma secant_while_residual (fuel : nat) :
  forall (l : secant_locals) (e : loop_exit),
    while fuel l = Some e ->
    f_n l = f (x_n l) ->
    f_n (exit_locals e) = f (x_n (exit_locals e)).
Proof.
  induction fuel as [|k IH]; intros l e H Hl; rewrite secant_while_unfold in H;
    destruct (grd l); try (injection H as <-; exact Hl);
    destruct (degenerate l); try (injection H as <-; exact Hl).
  - discriminate.
  - apply IH in H; [exact H | reflexivity].
Qed.

(** The run from the two seeds finishes on [secant_fuel]. *)
Lemma secant_run_total :
  exists e, secant_run f res max_tries (secant_fuel max_tries) = Some e.
Proof.
  apply secant_while_total. unfold secant_fuel. simpl. lia.
Qed.

Lemma secant_solve_run (e : loop_exit) :
  secant_run f res max_tries (secant_fuel max_tries) = Some e ->
  secant_solve f res max_tries = secant_return max_tries e.
Proof. intros H. unfold secant_solve. rewrite H. reflexivity. Qed.

(** The returned [double] is the encoding of the outcome. *)
Lemma secant_return_encode (e : loop_exit) :
  secant_return max_tries e = encode (outcome_of max_tries e).
Proof.
  destruct e as [l|l]; simpl; [reflexivity|].
  destruct (trials l >=? max_tries)%Z; reflexivity.
Qed.

(** A degenerate step under a true guard leaves at once, whatever the fuel. *)
Lemma secant_while_degenerate (fuel : nat) (l : secant_locals) :
  grd l = true -> degenerate l = true -> while fuel l = Some (ReturnedInLoop l).
Proof. intros G D. rewrite secant_while_unfold, G, D. reflexivity. Qed.

(** A false guard leaves at once, whatever the fuel. *)
Lemma secant_while_guard_false (fuel : nat) (l : secant_locals) :
  grd l = false -> while fuel l = Some (GuardFailed l).
Proof. intros G. rewrite secant_while_unfold, G. reflexivity. Qed.

End SecantFacts.

(** * The run from the two seeds *)

Section SeedFacts.
Variable f : double -> double.
Variable res : double.
Variable max_tries : Z.

(** The second seed [0.06 + 0.0025] is the double [0.0625]. *)
Lemma secant_init_eq :
  secant_init f =
  {| x_n_minus_1 := 0.06; x_n := 0.0625;
     f_n_minus_1 := f 0.06; f_n := f 0.0625; trials := 0 |}.
Proof. reflexivity. Qed.

Lemma guard_init :
  guard res max_tries (secant_init f) =
  gtb (ABS (f 0.0625)) res && (0 <? max_tries)%Z.
Proof. reflexivity. Qed.

(** The residual at the second seed not above the tolerance: the loop is
    left by its guard before any run of the body, and [0.0625] is returned. *)
Lemma seed_not_above_tolerance :
  (1 <= max_tries)%Z ->
  gtb (ABS (f 0.0625)) res = false ->
  (forall fuel, secant_run f res max_tries fuel = Some (GuardFailed (secant_init f)))
  /\ secant_solve f res max_tries = 0.0625.
Proof.
  intros Hm Hgt.
  assert (G : guard res max_tries (secant_init f) = false).
  { rewrite guard_init, Hgt. reflexivity. }
  assert (R : forall fuel, secant_run f res max_tries fuel = Some (GuardFailed (secant_init f))).
  { intros fuel. apply secant_while_guard_false. exact G. }
  split; [exact R|].
  rewrite (secant_solve_run _ _ _ _ (R _)). simpl.
  destruct (0 >=? max_tries)%Z eqn:E; [apply Z.geb_le in E; lia | reflexivity].
Qed.

Lemma seed_within_tolerance :
  (1 <= max_tries)%Z ->
  (ABS (f 0.0625) <=? res) = true ->
  (forall fuel, secant_run f res max_tries fuel = Some (GuardFailed (secant_init f)))
  /\ secant_solve f res max_tries = 0.0625.
Proof.
  intros Hm Hle. apply seed_not_above_tolerance; [exact Hm|].
  apply leb_gtb_false. exact Hle.
Qed.

(** Equal residuals at the two seeds, above the tolerance, with at least one
    try allowed: the first run of the body returns [-999.0]. *)
Lemma seed_degenerate :
  (1 <= max_tries)%Z ->
  f 0.06 = f 0.0625 ->
  gtb (ABS (f 0.0625)) res = true ->
  (forall fuel, secant_run f res max_tries fuel = Some (ReturnedInLoop (secant_init f)))
  /\ secant_solve f res max_tries = DEGENERATE_STEP.
Proof.
  intros Hm Heq Hgt.
  assert (G : guard res max_tries (secant_init f) = true).
  { rewrite guard_init, Hgt. apply Z.ltb_lt. lia. }
  assert (D : degenerate (secant_init f) = true).
  { unfold degenerate. rewrite secant_init_eq. simpl. rewrite Heq.
    exact (gtb_ABS_number _ _ Hgt). }
  assert (R : forall fuel,
             secant_run f res max_tries fuel = Some (ReturnedInLoop (secant_init f))).
  { intros fuel. apply secant_while_degenerate; assumption. }
  split; [exact R|].
  rewrite (secant_solve_run _ _ _ _ (R _)). reflexivity.
Qed.

(** No try allowed: the loop is not entered and [-998.0] is returned. *)
Lemma no_tries_allowed :
  (max_tries <= 0)%Z ->
  secant_solve f res max_tries = NON_CONVERGENCE.
Proof.
  intros Hm.
  assert (G : guard res max_tries (secant_init f) = false).
  { rewrite guard_init. replace (0 <? max_tries)%Z with false.
    - apply andb_false_r.
    - symmetry. apply Z.ltb_ge. lia. }
  rewrite (secant_solve_run _ _ _ _ (secant_while_guard_false f res max_tries _ _ G)).
  simpl. destruct (0 >=? max_tries)%Z eqn:E; [reflexivity | rewrite Z.geb_leb in E].
  apply Z.leb_gt in E. lia.
Qed.

(** The run finishes, with at most [max_tries] secant updates. *)
Lemma secant_solve_terminates :
  exists e,
    secant_run f res max_tries (secant_fuel max_tries) = Some e
    /\ secant_solve f res max_tries = secant_return max_tries e
    /\ (0 <= updates_done e <= Z.max 0 max_tries)%Z.
Proof.
  destruct (secant_run_total f res max_tries) as [e He].
  exists e. split; [exact He|]. split; [exact (secant_solve_run _ _ _ _ He)|].
  exact (secant_while_trials _ _ _ _ _ _ He).
Qed.

(** A solved outcome: the returned point is the last trial point, and the
    residual there does not exceed the tolerance. *)
Lemma solved_residual (x : double) :
  secant_outcome f res max_tries = Some (Solved x) ->
  secant_solve f res max_tries = x
  /\ gtb (ABS (f x)) res = false
  /\ ((f x =? f x) = true -> (res =? res) = true -> (ABS (f x) <=? res) = true).
Proof.
  unfold secant_outcome. intros H.
  destruct (secant_run f res max_tries (secant_fuel max_tries)) as [e|] eqn:He;
    [|discriminate].
  simpl in H. injection H as H.
  pose proof (secant_while_exit _ _ _ _ _ _ He) as Hx.
  pose proof (secant_while_residual _ _ _ _ _ _ He eq_refl) as Hr.
  destruct e as [l|l]; simpl in H; [discriminate|].
  destruct (trials l >=? max_tries)%Z eqn:T; [discriminate|].
  injection H as <-. simpl in Hr.
  assert (Hg : gtb (ABS (f (x_n l))) res = false).
  { unfold guard in Hx. rewrite Hr in Hx. apply andb_false_iff in Hx.
    destruct Hx as [Hx|Hx]; [exact Hx|].
    apply Z.ltb_ge in Hx. rewrite Z.geb_leb in T. apply Z.leb_gt in T. lia. }
  split; [|split].
  - rewrite (secant_solve_run _ _ _ _ He). simpl. rewrite T. reflexivity.
  - exact Hg.
  - intros Hn Hres. apply gtb_false_leb; [apply ABS_number; exact Hn | exact Hres | exact Hg].
Qed.

End SeedFacts.

(** * The present-value loops against the specification's formulas *)

Lemma rd_column {A : Type} (g : A -> double) (pre : list A) (e : A) (suf : list A) :
  rd (map g (pre ++ e :: suf)) (List.length pre) = g e.
Proof.
  unfold rd. rewrite map_app. simpl.
  rewrite <- (length_map g pre). apply nth_middle.
Qed.

Lemma snoc_app {A : Type} (pre : list A) (e : A) (suf : list A) :
  (pre ++ [e]) ++ suf = pre ++ e :: suf.
Proof. rewrite <- app_assoc. reflexivity. Qed.

Lemma snoc_length {A : Type} (pre : list A) (e : A) :
  List.length (pre ++ [e]) = S (List.length pre).
Proof. rewrite length_app. simpl. lia. Qed.

Lemma indices_entries (s : stream) : indices (entries s) = seq 0 (List.length s).
Proof. unfold indices, entries. rewrite Nat2Z.id. reflexivity. Qed.

Lemma entries_positive (s : stream) : s <> [] -> (0 <? entries s)%Z = true.
Proof.
  intros Hs. apply Z.ltb_lt. unfold entries.
  destruct s; [congruence | simpl; lia].
Qed.

(** The [for] loop of [_compute_pv] from index [length pre] on, started in
    the locals [l], accumulates what the recurrence gives on the remaining
    entries from the same discount factor, previous offset and value. *)
Lemma pv_loop_recurrence (year_convention spread : double) (suf : stream) :
  forall (pre : stream) (l : pv_locals),
    cumul_pv
      (fold_left
         (pv_body (amounts (pre ++ suf)) (dayOffsets (pre ++ suf))
            (referenceRates (pre ++ suf)) year_convention spread)
         (seq (List.length pre) (List.length suf)) l)
    = spread_recurrence year_convention spread suf
        (discount_factor l) (prev_cumul_date l) (cumul_pv l).
Proof.
  induction suf as [|e suf IH]; intros pre l; [reflexivity|].
  cbn [List.length seq fold_left spread_recurrence].
  rewrite <- (snoc_length pre e), <- (snoc_app pre e suf), IH.
  rewrite (snoc_app pre e suf).
  unfold pv_body, amounts, dayOffsets, referenceRates.
  rewrite !rd_column. reflexivity.
Qed.

(** The same for the loop of [_compute_pv_for_irr]. *)
Lemma irr_loop_sum (pow : double -> double -> double)
    (orig_date irr : double) (suf : stream) :
  forall (pre : stream) (cumul : double),
    fold_left
      (irr_body pow (amounts (pre ++ suf)) (dayOffsets (pre ++ suf)) orig_date irr)
      (seq (List.length pre) (List.length suf)) cumul
    = irr_sum pow irr orig_date suf cumul.
Proof.
  induction suf as [|e suf IH]; intros pre cumul; [reflexivity|].
  cbn [List.length seq fold_left].
  rewrite <- (snoc_length pre e), <- (snoc_app pre e suf), IH.
  rewrite (snoc_app pre e suf).
  unfold irr_body, amounts, dayOffsets, irr_sum, irr_discount_factor.
  rewrite !rd_column. reflexivity.
Qed.

(** * The marshalling loops *)

Lemma rb_ary_entry_column {A : Type} (g : A -> double) (pre : list A) (e : A)
    (suf : list A) :
  rb_ary_entry (map g (pre ++ e :: suf)) (List.length pre) = Some (g e).
Proof.
  unfold rb_ary_entry. rewrite map_app. simpl.
  rewrite <- (length_map g pre). rewrite nth_error_app2 by lia.
  rewrite Nat.sub_diag. reflexivity.
Qed.

Lemma last_cons {A : Type} (d : A) (r : list A) (x : A) : last (d :: r) x = last r d.
Proof.
  revert d x. induction r as [|d' r IH]; intros d x; [reflexivity|].
  change (last (d :: d' :: r) x) with (last (d' :: r) x).
  rewrite (IH d' x), (IH d' d). reflexivity.
Qed.

(** On the columns of a stream the loop of [backsolve_cf] either meets an
    offset it rejects, or copies the columns. *)
Lemma marshal_cf_stream (suf : stream) :
  forall (pre : stream) (b : cf_buffers),
    marshal_cf (amounts (pre ++ suf)) (dayOffsets (pre ++ suf))
      (referenceRates (pre ++ suf)) (seq (List.length pre) (List.length suf)) b
    = if offsets_accepted (prev_date b) (dayOffsets suf)
      then inr {| c_cfs := c_cfs b ++ amounts suf;
                  c_dates := c_dates b ++ dayOffsets suf;
                  c_libor := c_libor b ++ referenceRates suf;
                  prev_date := last (dayOffsets suf) (prev_date b) |}
      else inl (eRuntimeError, msg_dates).
Proof.
  induction suf as [|e suf IH]; intros pre b.
  - simpl. rewrite !app_nil_r. destruct b; reflexivity.
  - cbn [List.length seq marshal_cf].
    unfold amounts, dayOffsets, referenceRates. rewrite !rb_ary_entry_column.
    cbn [map offsets_accepted].
    destruct (dayOffset e <=? prev_date b); [reflexivity|].
    cbn [negb andb].
    rewrite <- (snoc_length pre e), <- (snoc_app pre e suf).
    fold (amounts ((pre ++ [e]) ++ suf)) (dayOffsets ((pre ++ [e]) ++ suf))
         (referenceRates ((pre ++ [e]) ++ suf)).
    rewrite IH. cbn [prev_date c_cfs c_dates c_libor].
    fold (dayOffsets suf).
    destruct (offsets_accepted (dayOffset e) (dayOffsets suf)); [|reflexivity].
    rewrite last_cons. unfold amounts, dayOffsets, referenceRates.
    rewrite <- !app_assoc. reflexivity.
Qed.

Lemma marshal_irr_stream (suf : stream) :
  forall (pre : stream) (b : cf_buffers),
    marshal_irr (amounts (pre ++ suf)) (dayOffsets (pre ++ suf))
      (seq (List.length pre) (List.length suf)) b
    = if offsets_accepted (prev_date b) (dayOffsets suf)
      then inr {| c_cfs := c_cfs b ++ amounts suf;
                  c_dates := c_dates b ++ dayOffsets suf;
                  c_libor := c_libor b;
                  prev_date := last (dayOffsets suf) (prev_date b) |}
      else inl (eRuntimeError, msg_dates).
Proof.
  induction suf as [|e suf IH]; intros pre b.
  - simpl. rewrite !app_nil_r. destruct b; reflexivity.
  - cbn [List.length seq marshal_irr].
    unfold amounts, dayOffsets. rewrite !rb_ary_entry_column.
    cbn [map offsets_accepted].
    destruct (dayOffset e <=? prev_date b); [reflexivity|].
    cbn [negb andb].
    rewrite <- (snoc_length pre e), <- (snoc_app pre e suf).
    fold (amounts ((pre ++ [e]) ++ suf)) (dayOffsets ((pre ++ [e]) ++ suf)).
    rewrite IH. cbn [prev_date c_cfs c_dates c_libor].
    fold (dayOffsets suf).
    destruct (offsets_accepted (dayOffset e) (dayOffsets suf)); [|reflexivity].
    rewrite last_cons. unfold amounts, dayOffsets.
    rewrite <- !app_assoc. reflexivity.
Qed.

(** Strictly increasing offsets are let through. *)
Lemma increasing_accepted (ds : list double) :
  forall prev, strictly_increasing_from prev ds = true -> offsets_accepted prev ds = true.
Proof.
  induction ds as [|d ds IH]; intros prev H; [reflexivity|].
  simpl in *. apply andb_true_iff in H. destruct H as [H1 H2].
  rewrite (IH _ H2), andb_true_r.
  destruct (d <=? prev) eqn:E; [|reflexivity].
  apply leb_gtb_false in E. unfold gtb in E. congruence.
Qed.

(** Offsets that are numbers and not strictly increasing are rejected. *)
Lemma not_increasing_rejected (ds : list double) :
  forall prev,
    (prev =? prev) = true -> all_numbers ds = true ->
    strictly_increasing_from prev ds = false -> offsets_accepted prev ds = false.
Proof.
  induction ds as [|d ds IH]; intros prev Hp Hn H; [discriminate|].
  simpl in *. apply andb_true_iff in Hn. destruct Hn as [Hd Hn].
  apply andb_false_iff in H. destruct H as [H|H].
  - rewrite (gtb_false_leb d prev Hd Hp H). reflexivity.
  - rewrite (IH _ Hd Hn H). apply andb_false_r.
Qed.

(** * The exported functions on the columns of a stream *)

Lemma entries_not_below_one (s : stream) : s <> [] -> (entries s <? 1)%Z = false.
Proof.
  intros Hs. apply Z.ltb_ge. unfold entries.
  destruct s; [congruence | simpl; lia].
Qed.

Lemma backsolve_cf_stream (s : stream) (target_px res : double) (max_tries : Z)
    (is_clean : bool) (accrued_interest year_convention : double) :
  s <> [] ->
  backsolve_cf (amounts s) (dayOffsets s) (referenceRates s) (entries s)
    target_px res max_tries is_clean accrued_interest year_convention
  = if offsets_accepted 0 (dayOffsets s)
    then rb_of_c_result
           (_backsolve_cf (amounts s) (dayOffsets s) (referenceRates s) (entries s)
              target_px res max_tries is_clean accrued_interest year_convention)
    else RbRaise eRuntimeError msg_dates.
Proof.
  intros Hs. unfold backsolve_cf.
  rewrite (entries_not_below_one s Hs), indices_entries.
  pose proof (marshal_cf_stream s [] cf_buffers_init) as M.
  cbn [app List.length] in M. rewrite M.
  cbn [prev_date cf_buffers_init c_cfs c_dates c_libor app].
  destruct (offsets_accepted 0 (dayOffsets s)); reflexivity.
Qed.

Lemma backsolve_irr_stream (pow : double -> double -> double) (s : stream)
    (res : double) (max_tries : Z) (is_clean : bool) (accrued_interest : double) :
  s <> [] ->
  backsolve_irr pow (amounts s) (dayOffsets s) (entries s)
    res max_tries is_clean accrued_interest
  = if offsets_accepted 0 (dayOffsets s)
    then rb_of_c_result
           (_backsolve_irr pow (amounts s) (dayOffsets s) (entries s)
              res max_tries is_clean accrued_interest)
    else RbRaise eRuntimeError msg_dates.
Proof.
  intros Hs. unfold backsolve_irr.
  rewrite (entries_not_below_one s Hs), indices_entries.
  pose proof (marshal_irr_stream s [] cf_buffers_init) as M.
  cbn [app List.length] in M. rewrite M.
  cbn [prev_date cf_buffers_init c_cfs c_dates c_libor app].
  destruct (offsets_accepted 0 (dayOffsets s)); reflexivity.
Qed.

(** * The claims *)

(** C3. For every non-empty stream, [_compute_pv] on the columns of the
    stream is the value of the recurrence: discount factor [1] and previous
    day offset [0] to start with; per entry the rate [referenceRate + spread],
    the discount factor divided by
    [1 + rate * (dayOffset - previousDayOffset) / yearConvention], and
    [amount * discountFactor] added to the value; accrued interest
    subtracted at the end exactly when the clean flag is set. *)
Theorem compute_pv_is_recurrence (s : stream) (is_clean : bool)
    (accrued_interest year_convention spread : double) :
  s <> [] ->
  _compute_pv (amounts s) (dayOffsets s) (referenceRates s) (entries s)
    is_clean accrued_interest year_convention spread
  = DiscountEngine_spread s is_clean accrued_interest year_convention spread.
Proof.
  intros Hs. unfold _compute_pv, DiscountEngine_spread, clean_adjust.
  rewrite (entries_positive s Hs), indices_entries.
  pose proof (pv_loop_recurrence year_convention spread s [] pv_init) as L.
  cbn [app List.length] in L. rewrite L. reflexivity.
Qed.

Lemma compute_pv_is_recurrence_witness :
  let s := [mk_entry 5 365 0.03; mk_entry 105 730 0.035] in
  s <> []
  /\ _compute_pv (amounts s) (dayOffsets s) (referenceRates s) (entries s)
       true 1.25 365 0.02
     = DiscountEngine_spread s true 1.25 365 0.02.
Proof.
  split; [discriminate|].
  apply (compute_pv_is_recurrence
           [mk_entry 5 365 0.03; mk_entry 105 730 0.035] true 1.25 365 0.02).
  discriminate.
Defined.

(** C4. For every non-empty stream, [_compute_pv_for_irr] on the columns of
    the stream is the sum over the entries, in order, of
    [amount * (1 / pow (1 + yield) ((dayOffset - firstDayOffset) / 365))],
    the offsets being counted from the first entry's and not from day zero;
    accrued interest is subtracted exactly when the clean flag is set. *)
Theorem compute_pv_for_irr_is_sum (pow : double -> double -> double) (s : stream)
    (is_clean : bool) (accrued_interest irr : double) :
  s <> [] ->
  _compute_pv_for_irr pow (amounts s) (dayOffsets s) (entries s)
    is_clean accrued_interest irr
  = DiscountEngine_irr pow s is_clean accrued_interest irr.
Proof.
  intros Hs. unfold _compute_pv_for_irr, DiscountEngine_irr, clean_adjust.
  rewrite (entries_positive s Hs), indices_entries.
  destruct s as [|e0 s]; [congruence|].
  pose proof (irr_loop_sum pow (rd (dayOffsets (e0 :: s)) 0) irr (e0 :: s) [] 0) as L.
  change ([] ++ e0 :: s) with (e0 :: s) in L.
  change (List.length (@nil entry)) with 0%nat in L.
  rewrite L. reflexivity.
Qed.

Lemma compute_pv_for_irr_is_sum_witness :
  let s := [mk_entry (-100) 365 0; mk_entry 5 730 0; mk_entry 105 1095 0] in
  s <> []
  /\ _compute_pv_for_irr pow_whole (amounts s) (dayOffsets s) (entries s) false 0 0.05
     = DiscountEngine_irr pow_whole s false 0 0.05.
Proof.
  split; [discriminate|].
  apply (compute_pv_for_irr_is_sum pow_whole
           [mk_entry (-100) 365 0; mk_entry 5 730 0; mk_entry 105 1095 0] false 0 0.05).
  discriminate.
Defined.

(** C8. Every solve terminates: for every stream, target, tolerance and
    cap, the loop of each backsolver is left after at most [max_tries] secant
    updates (none when [max_tries] is not positive), and the function returns
    the value that belongs to the way the loop was left. *)
Theorem backsolvers_terminate (pow : double -> double -> double)
    (cfs dates libor : list double) (num_cfs : Z) (target_px res : double)
    (max_tries : Z) (is_clean : bool) (accrued_interest year_convention : double) :
  (exists e,
      secant_run
        (cf_residual cfs dates libor num_cfs target_px is_clean accrued_interest
           year_convention) res max_tries (Z.to_nat max_tries) = Some e
      /\ _backsolve_cf cfs dates libor num_cfs target_px res max_tries is_clean
           accrued_interest year_convention = secant_return max_tries e
      /\ (0 <= updates_done e <= Z.max 0 max_tries)%Z)
  /\ (exists e,
      secant_run (irr_residual pow cfs dates num_cfs is_clean accrued_interest)
        res max_tries (Z.to_nat max_tries) = Some e
      /\ _backsolve_irr pow cfs dates num_cfs res max_tries is_clean accrued_interest
         = secant_return max_tries e
      /\ (0 <= updates_done e <= Z.max 0 max_tries)%Z).
Proof.
  split; apply secant_solve_terminates.
Qed.

(** C10. With [max_tries >= 1], when the residual at the second seed
    [0.06 + 0.0025], which is the double [0.0625], is within the tolerance,
    both backsolvers return [0.0625]: the loop is left by its guard on
    entry, with no secant update and no degenerate test (it is left so with
    no fuel at all).  The residual at the first seed [0.06] is never tested:
    the guard reads [f_n] and [trials] only. *)
Theorem second_seed_within_tolerance (pow : double -> double -> double)
    (cfs dates libor : list double) (num_cfs : Z) (target_px res : double)
    (max_tries : Z) (is_clean : bool) (accrued_interest year_convention : double) :
  (1 <= max_tries)%Z ->
  0.06 + 0.0025 = 0.0625
  /\ (forall (l : secant_locals) (v : double),
        guard res max_tries
          {| x_n_minus_1 := x_n_minus_1 l; x_n := x_n l;
             f_n_minus_1 := v; f_n := f_n l; trials := trials l |}
        = guard res max_tries l)
  /\ ((ABS (target_px
            - _compute_pv cfs dates libor num_cfs is_clean accrued_interest
                year_convention 0.0625) <=? res) = true ->
      _backsolve_cf cfs dates libor num_cfs target_px res max_tries is_clean
        accrued_interest year_convention = 0.0625
      /\ exists l,
          secant_run
            (cf_residual cfs dates libor num_cfs target_px is_clean accrued_interest
               year_convention) res max_tries 0 = Some (GuardFailed l)
          /\ trials l = 0%Z /\ x_n l = 0.0625)
  /\ ((ABS (0.0
            - _compute_pv_for_irr pow cfs dates num_cfs is_clean accrued_interest
                0.0625) <=? res) = true ->
      _backsolve_irr pow cfs dates num_cfs res max_tries is_clean accrued_interest
      = 0.0625
      /\ exists l,
          secant_run (irr_residual pow cfs dates num_cfs is_clean accrued_interest)
            res max_tries 0 = Some (GuardFailed l)
          /\ trials l = 0%Z /\ x_n l = 0.0625).
Proof.
  intros Hm. split; [reflexivity|]. split; [reflexivity|]. split; intros Hle.
  - destruct (seed_within_tolerance
                (cf_residual cfs dates libor num_cfs target_px is_clean
                   accrued_interest year_convention) res max_tries Hm Hle) as [R S].
    split; [exact S|]. eexists. split; [apply R|]. split; reflexivity.
  - destruct (seed_within_tolerance
                (irr_residual pow cfs dates num_cfs is_clean accrued_interest)
                res max_tries Hm Hle) as [R S].
    split; [exact S|]. eexists. split; [apply R|]. split; reflexivity.
Qed.

Lemma second_seed_within_tolerance_witness :
  (1 <= 10)%Z
  /\ _backsolve_cf [106.25] [365] [0] 1 100 1e-6 10 false 0 365 = 0.0625
  /\ _backsolve_irr pow_whole [0] [365] 1 1e-6 10 false 0 = 0.0625.
Proof.
  split; [lia|]. split.
  - apply (second_seed_within_tolerance pow_whole [106.25] [365] [0] 1 100 1e-6 10
             false 0 365); [lia | reflexivity].
  - apply (second_seed_within_tolerance pow_whole [0] [365] [0] 1 0 1e-6 10
             false 0 365); [lia | reflexivity].
Defined.

(** C1. The failing input: one cash flow of 100 at day 365, reference rate
    0, year convention 365, target 100, tolerance 1e-6 and [max_tries = 4].
    The fourth secant update brings the residual within the tolerance, the
    loop is left by its guard with [trials = 4], and the test
    [trials >= max_tries] after the loop returns [-998.0]: the exported
    function raises "failed to converge".  With [max_tries = 5] the same run
    returns the trial point it had reached. *)
Theorem convergence_on_last_try_is_reported_as_failure :
  let f := cf_residual [100] [365] [0] 1 100 false 0 365 in
  let x := -2.0599353627418422e-10 in
  (exists l,
      secant_run f 1e-6 4 (secant_fuel 4) = Some (GuardFailed l)
      /\ trials l = 4%Z /\ x_n l = x /\ f_n l = f x
      /\ (ABS (f x) <=? 1e-6) = true)
  /\ _backsolve_cf [100] [365] [0] 1 100 1e-6 4 false 0 365 = NON_CONVERGENCE
  /\ backsolve_cf [100] [365] [0] 1 100 1e-6 4 false 0 365
     = RbRaise eRuntimeError msg_converge
  /\ _backsolve_cf [100] [365] [0] 1 100 1e-6 5 false 0 365 = x
  /\ backsolve_cf [100] [365] [0] 1 100 1e-6 5 false 0 365 = RbFloat x.
Proof.
  cbv zeta. split; [|repeat split; vm_compute; reflexivity].
  eexists. split; [vm_compute; reflexivity|].
  repeat split; vm_compute; reflexivity.
Qed.

(** The loop of [_backsolve_irr] is the same, and so is the outcome: on
    -100, 5 and 105 a year apart the fourth update is within 1e-9 of zero, and
    [max_tries = 4] turns it into [-998.0]. *)
Example irr_convergence_on_last_try :
  _backsolve_irr pow_whole [-100; 5; 105] [365; 730; 1095] 3 1e-9 4 false 0
  = NON_CONVERGENCE
  /\ _backsolve_irr pow_whole [-100; 5; 105] [365; 730; 1095] 3 1e-9 5 false 0
     = 0.049999999999996429.
Proof. split; vm_compute; reflexivity. Qed.

(** C2, as the claim states it, fails: one cash flow of 100 at day 365,
    reference rate 0, year convention 365 and the spread [-0.5].  The stream
    meets every precondition; its present value at that spread is 200; with
    that target, tolerance 1e-6 and 1000 tries the backsolver leaves the
    loop by [return -999.0] after 13 updates, and the exported function
    raises the zero-division error instead of returning a spread.  The same
    stream at the spread [0.03] with the tolerance 0 ends the same way: the
    iterates stall next to the root with equal residuals that are not 0. *)
Lemma spread_roundtrip_can_fail :
  let s := [mk_entry 100 365 0] in
  let pv := DiscountEngine_spread s false 0 365 in
  let solve target res :=
    secant_outcome
      (cf_residual (amounts s) (dayOffsets s) (referenceRates s) (entries s)
         target false 0 365) res 1000 in
  (spec_preconditions 1 1 1 (dayOffsets s) (entries s) 1e-6 1000 = true
   /\ pv (-0.5) = 200
   /\ _compute_pv (amounts s) (dayOffsets s) (referenceRates s) (entries s)
        false 0 365 (-0.5) = pv (-0.5)
   /\ solve (pv (-0.5)) 1e-6 = Some DegenerateStep
   /\ backsolve_cf (amounts s) (dayOffsets s) (referenceRates s) (entries s)
        (pv (-0.5)) 1e-6 1000 false 0 365 = RbRaise eZeroDivError msg_degenerate)
  /\ (spec_preconditions 1 1 1 (dayOffsets s) (entries s) 0 1000 = true
      /\ solve (pv 0.03) 0 = Some DegenerateStep
      /\ backsolve_cf (amounts s) (dayOffsets s) (referenceRates s) (entries s)
           (pv 0.03) 0 1000 false 0 365 = RbRaise eZeroDivError msg_degenerate).
Proof. cbv zeta. repeat split; vm_compute; reflexivity. Qed.

(** C2, amended.  For every stream and every spread [s], when the spread
    backsolver is run with the target set to the present value at [s] (same
    clean flag, accrued interest and year convention) and it solves, the
    spread [x] it returns has a residual that does not exceed the tolerance:
    [ABS(target - PV(x)) > res] is false, and [ABS(target - PV(x)) <= res]
    holds when the residual and the tolerance are numbers.  That it solves is
    not promised. *)
Theorem spread_roundtrip_when_solved (cfs dates libor : list double) (num_cfs : Z)
    (res : double) (max_tries : Z) (is_clean : bool)
    (accrued_interest year_convention spread x : double) :
  let pv := _compute_pv cfs dates libor num_cfs is_clean accrued_interest
              year_convention in
  let target := pv spread in
  secant_outcome
    (cf_residual cfs dates libor num_cfs target is_clean accrued_interest
       year_convention) res max_tries = Some (Solved x) ->
  _backsolve_cf cfs dates libor num_cfs target res max_tries is_clean
    accrued_interest year_convention = x
  /\ gtb (ABS (target - pv x)) res = false
  /\ ((target - pv x =? target - pv x) = true -> (res =? res) = true ->
      (ABS (target - pv x) <=? res) = true).
Proof.
  cbv zeta. intros H.
  exact (solved_residual _ res max_tries x H).
Qed.

Lemma spread_roundtrip_when_solved_witness :
  let pv := _compute_pv [5; 5; 105] [365; 730; 1095] [0.03; 0.03; 0.03] 3 false 0 365 in
  let x := 0.020000000000002419 in
  secant_outcome
    (cf_residual [5; 5; 105] [365; 730; 1095] [0.03; 0.03; 0.03] 3 (pv 0.02)
       false 0 365) 1e-9 1000 = Some (Solved x)
  /\ _backsolve_cf [5; 5; 105] [365; 730; 1095] [0.03; 0.03; 0.03] 3 (pv 0.02)
       1e-9 1000 false 0 365 = x
  /\ (ABS (pv 0.02 - pv x) <=? 1e-9) = true.
Proof.
  cbv zeta.
  assert (H : secant_outcome
                (cf_residual [5; 5; 105] [365; 730; 1095] [0.03; 0.03; 0.03] 3
                   (_compute_pv [5; 5; 105] [365; 730; 1095] [0.03; 0.03; 0.03] 3
                      false 0 365 0.02) false 0 365) 1e-9 1000
              = Some (Solved 0.020000000000002419))
    by (vm_compute; reflexivity).
  split; [exact H|].
  destruct (spread_roundtrip_when_solved
              [5; 5; 105] [365; 730; 1095] [0.03; 0.03; 0.03] 3 1e-9 1000
              false 0 365 0.02 0.020000000000002419 H) as [R [_ L]].
  split; [exact R|]. apply L; reflexivity.
Defined.




(** What the exported functions make of an outcome of the core: the two
    failures raise, and so does a solved rate that compares equal to a
    sentinel. *)
Lemma rb_of_encoded_outcome (o : outcome) :
  rb_of_c_result (encode o)
  = match o with
    | DegenerateStep => RbRaise eZeroDivError msg_degenerate
    | NonConvergence => RbRaise eRuntimeError msg_converge
    | Solved x =>
        if x =? DEGENERATE_STEP then RbRaise eZeroDivError msg_degenerate
        else if x =? NON_CONVERGENCE then RbRaise eRuntimeError msg_converge
        else RbFloat x
    end.
Proof. destruct o; reflexivity. Qed.

Lemma secant_solve_outcome (f : double -> double) (res : double) (max_tries : Z) :
  exists o,
    secant_outcome f res max_tries = Some o
    /\ secant_solve f res max_tries = encode o.
Proof.
  destruct (secant_run_total f res max_tries) as [e He].
  exists (outcome_of max_tries e). unfold secant_outcome. rewrite He.
  split; [reflexivity|].
  rewrite (secant_solve_run _ _ _ _ He). apply secant_return_encode.
Qed.

(** The three failures the exported functions raise differ from each other
    (the two runtime errors by their message) and from every Float. *)
Lemma failures_distinct (x : double) :
  RbRaise eZeroDivError msg_degenerate <> RbRaise eRuntimeError msg_converge
  /\ RbRaise eRuntimeError msg_converge <> RbRaise eRuntimeError msg_dates
  /\ RbRaise eRuntimeError msg_converge <> RbRaise eRuntimeError msg_no_entry
  /\ RbRaise eRuntimeError msg_dates <> RbRaise eRuntimeError msg_no_entry
  /\ RbFloat x <> RbRaise eZeroDivError msg_degenerate
  /\ RbFloat x <> RbRaise eRuntimeError msg_converge.
Proof. repeat split; discriminate. Qed.


Lemma backsolve_cf_no_entry (cfs dates libor : list double) (num_cfs : Z)
    (target_px res : double) (max_tries : Z) (is_clean : bool)
    (accrued_interest year_convention : double) :
  (num_cfs < 1)%Z ->
  backsolve_cf cfs dates libor num_cfs target_px res max_tries is_clean
    accrued_interest year_convention = RbRaise eRuntimeError msg_no_entry.
Proof.
  intros H. unfold backsolve_cf. apply Z.ltb_lt in H. rewrite H. reflexivity.
Qed.

Lemma backsolve_irr_no_entry (pow : double -> double -> double)
    (cfs dates : list double) (num_cfs : Z) (res : double) (max_tries : Z)
    (is_clean : bool) (accrued_interest : double) :
  (num_cfs < 1)%Z ->
  backsolve_irr pow cfs dates num_cfs res max_tries is_clean accrued_interest
  = RbRaise eRuntimeError msg_no_entry.
Proof.
  intros H. unfold backsolve_irr. apply Z.ltb_lt in H. rewrite H. reflexivity.
Qed.

(** C7, as the claim states it, fails: the tolerance, the iteration cap and
    the lengths of the arrays are not checked.  With [max_tries = 0] on an
    otherwise valid call the core runs and its non-convergence is what the
    caller gets; with a tolerance of -1 the core runs to a degenerate step;
    with two amounts for one day offset and [num_cfs = 1] the core runs and
    a Float comes back.  None of the three is an input-validation failure. *)
Lemma unchecked_preconditions_reach_the_core :
  (spec_preconditions 1 1 1 [365] 1 1e-6 0 = false
   /\ backsolve_cf [100] [365] [0] 1 100 1e-6 0 false 0 365
      = RbRaise eRuntimeError msg_converge
   /\ is_validation_failure (RbRaise eRuntimeError msg_converge) = false)
  /\ (spec_preconditions 1 1 1 [365] 1 (-1) 100 = false
      /\ backsolve_cf [100] [365] [0] 1 100 (-1) 100 false 0 365
         = RbRaise eZeroDivError msg_degenerate
      /\ is_validation_failure (RbRaise eZeroDivError msg_degenerate) = false)
  /\ (spec_preconditions 2 1 1 [365] 1 1e-6 100 = false
      /\ backsolve_cf [100; 7] [365] [0] 1 100 1e-6 100 false 0 365
         = RbFloat (-2.0599353627418422e-10)).
Proof. repeat split; vm_compute; reflexivity. Qed.

(** * A stream of one entry under the IRR model *)

Lemma neg_zero_or_not (a : double) : a = neg_zero \/ a <> neg_zero.
Proof.
  destruct (PrimFloat.Leibniz.eqb a neg_zero) eqn:E.
  - left. apply FloatAxioms.Leibniz.eqb_spec. exact E.
  - right. intros H. apply FloatAxioms.Leibniz.eqb_spec in H. congruence.
Qed.

Section SingleEntry.
Variable pow : double -> double -> double.
Hypothesis pow_zero : forall x, pow x 0 = 1.
Variables a d : double.
Hypothesis d_finite : is_finite d = true.
Variable is_clean : bool.
Variable accrued_interest : double.

(** The only exponent is [(d - d) / 365 = 0]: the present value does not
    depend on the trial yield. *)
Lemma single_entry_pv (y : double) :
  _compute_pv_for_irr pow [a] [d] 1 is_clean accrued_interest y
  = clean_adjust is_clean accrued_interest (0 + a).
Proof.
  unfold _compute_pv_for_irr, clean_adjust.
  change (0 <? 1)%Z with true. change (indices 1) with [0%nat].
  cbn [fold_left]. unfold irr_body, rd. cbn [nth].
  rewrite (sub_diag_finite d d_finite).
  change (0 / 365.0) with 0. rewrite pow_zero.
  change (1.0 / 1) with 1. rewrite mul_1_r. reflexivity.
Qed.

Lemma single_entry_residual (x : double) :
  irr_residual pow [a] [d] 1 is_clean accrued_interest x
  = 0 - clean_adjust is_clean accrued_interest (0 + a).
Proof. unfold irr_residual. rewrite single_entry_pv. reflexivity. Qed.

(** The loop's test on that residual is the test on the amount, less
    accrued interest when clean. *)
Lemma single_entry_test (res : double) :
  gtb (ABS (0 - clean_adjust is_clean accrued_interest (0 + a))) res
  = gtb (ABS (clean_adjust is_clean accrued_interest a)) res.
Proof.
  rewrite gtb_ABS_zero_sub. unfold clean_adjust. destruct is_clean.
  - destruct (neg_zero_or_not a) as [E|E].
    + subst a. change (0 + neg_zero) with 0. apply gtb_ABS_zero_sign.
    + rewrite (add_0_l a E). reflexivity.
  - apply gtb_ABS_add_0.
Qed.

Lemma single_entry_solve (res : double) (max_tries : Z) :
  (1 <= max_tries)%Z ->
  _backsolve_irr pow [a] [d] 1 res max_tries is_clean accrued_interest
  = if gtb (ABS (clean_adjust is_clean accrued_interest a)) res
    then DEGENERATE_STEP else 0.0625.
Proof.
  intros Hm. unfold _backsolve_irr. rewrite <- single_entry_test.
  destruct (gtb (ABS (0 - clean_adjust is_clean accrued_interest (0 + a))) res) eqn:G.
  - apply seed_degenerate; [exact Hm | | ].
    + rewrite !single_entry_residual. reflexivity.
    + rewrite single_entry_residual. exact G.
  - apply seed_not_above_tolerance; [exact Hm|].
    rewrite single_entry_residual. exact G.
Qed.

End SingleEntry.

(** C9, as the claim states it, fails when no try is allowed: one cash flow
    of 100 at day 365, tolerance 1e-6, [max_tries = 0].  The amount exceeds
    the tolerance, so the claim has a degenerate step; the loop is not
    entered, [-998.0] is returned whatever [pow] is, and the exported
    function raises "failed to converge".  With the amount 0 the claim has
    the seed [0.0625] returned; the result is again [-998.0]. *)
Lemma single_entry_irr_without_tries :
  (gtb (ABS 100) 1e-6 = true
   /\ (forall pow, _backsolve_irr pow [100] [365] 1 1e-6 0 false 0 = NON_CONVERGENCE)
   /\ (forall pow,
         backsolve_irr pow [100] [365] 1 1e-6 0 false 0
         = RbRaise eRuntimeError msg_converge))
  /\ (gtb (ABS 0) 1e-6 = false
      /\ (forall pow, _backsolve_irr pow [0] [365] 1 1e-6 0 false 0 = NON_CONVERGENCE)).
Proof.
  assert (N : forall pow c,
             _backsolve_irr pow [c] [365] 1 1e-6 0 false 0 = NON_CONVERGENCE).
  { intros pow c. apply no_tries_allowed. lia. }
  split; split; try reflexivity; [split|]; intros pow; try apply N.
  pose proof (backsolve_irr_stream pow [mk_entry 100 365 0] 1e-6 0 false 0) as B.
  change (amounts [mk_entry 100 365 0]) with [100] in B.
  change (dayOffsets [mk_entry 100 365 0]) with [365] in B.
  change (entries [mk_entry 100 365 0]) with 1%Z in B.
  change (offsets_accepted 0 [365]) with true in B.
  rewrite B by discriminate. rewrite N. reflexivity.
Qed.

(** C9, amended.  For a stream of one entry with a finite day offset, and
    [pow] giving 1 on the exponent 0 as C's does, the IRR present value is
    the amount (a [-0.0] amount counted as [0.0]), less accrued interest when
    clean, whatever the trial yield.  So the IRR backsolver never returns a
    computed yield on such a stream: with [max_tries >= 1] it returns
    [-999.0] when the amount, less accrued interest when clean, exceeds the
    tolerance under [ABS], and the seed [0.0625] otherwise; with
    [max_tries <= 0] it returns [-998.0]. *)
Theorem single_entry_irr (pow : double -> double -> double) (a d : double)
    (is_clean : bool) (accrued_interest res : double) (max_tries : Z) :
  (forall x, pow x 0 = 1) ->
  is_finite d = true ->
  (forall y,
      _compute_pv_for_irr pow [a] [d] 1 is_clean accrued_interest y
      = clean_adjust is_clean accrued_interest (0 + a))
  /\ (a = neg_zero \/ 0 + a = a)
  /\ ((1 <= max_tries)%Z ->
      _backsolve_irr pow [a] [d] 1 res max_tries is_clean accrued_interest
      = if gtb (ABS (clean_adjust is_clean accrued_interest a)) res
        then DEGENERATE_STEP else 0.0625)
  /\ ((max_tries <= 0)%Z ->
      _backsolve_irr pow [a] [d] 1 res max_tries is_clean accrued_interest
      = NON_CONVERGENCE).
Proof.
  intros Hpow Hd. split; [|split; [|split]].
  - intros y. apply single_entry_pv; assumption.
  - destruct (neg_zero_or_not a) as [E|E]; [left; exact E | right; apply add_0_l; exact E].
  - apply single_entry_solve; assumption.
  - intros Hm. apply no_tries_allowed. exact Hm.
Qed.

Lemma single_entry_irr_witness :
  (forall x, pow_whole x 0 = 1)
  /\ is_finite 365 = true
  /\ (forall y, _compute_pv_for_irr pow_whole [100] [365] 1 true 2.5 y = 100 - 2.5)
  /\ _backsolve_irr pow_whole [100] [365] 1 1e-6 10 true 2.5 = DEGENERATE_STEP
  /\ _backsolve_irr pow_whole [2.5] [365] 1 1e-6 10 true 2.5 = 0.0625.
Proof.
  split; [intros x; reflexivity|]. split; [reflexivity|]. split; [|split].
  - intros y.
    apply (single_entry_irr pow_whole 100 365 true 2.5 1e-6 10);
      [intros x; reflexivity | reflexivity].
  - apply (single_entry_irr pow_whole 100 365 true 2.5 1e-6 10);
      [intros x; reflexivity | reflexivity | lia].
  - apply (single_entry_irr pow_whole 2.5 365 true 2.5 1e-6 10);
      [intros x; reflexivity | reflexivity | lia].
Defined.

(** * Further facts about doubles: subtraction of unequal doubles *)

Lemma digits2_pos_lower (m : positive) :
  (2 ^ (Z.pos (digits2_pos m) - 1) <= Z.pos m)%Z.
Proof.
  induction m as [p IH|p IH|]; cbn [digits2_pos].
  - rewrite Pos2Z.inj_succ. replace (Z.succ (Z.pos (digits2_pos p)) - 1)%Z
      with (Z.succ (Z.pos (digits2_pos p) - 1))%Z by lia.
    rewrite Z.pow_succ_r by lia. lia.
  - rewrite Pos2Z.inj_succ. replace (Z.succ (Z.pos (digits2_pos p)) - 1)%Z
      with (Z.succ (Z.pos (digits2_pos p) - 1))%Z by lia.
    rewrite Z.pow_succ_r by lia. lia.
  - simpl. lia.
Qed.

Lemma digits2_pos_shift (d m : positive) :
  digits2_pos (Pos.iter xO m d) = (digits2_pos m + d)%positive.
Proof.
  induction d as [|d IH] using Pos.peano_ind.
  - simpl. lia.
  - rewrite Pos.iter_succ. cbn [digits2_pos]. rewrite IH. lia.
Qed.

Lemma shr_1_m (r : shr_record) :
  (0 <= shr_m r)%Z -> shr_m (shr_1 r) = Z.div2 (shr_m r).
Proof.
  destruct r as [m r s]. cbn [shr_m]. intros H.
  destruct m as [|[p|p|]|p]; try reflexivity; lia.
Qed.

Lemma iter_shr_1_m (n : positive) :
  forall r : shr_record,
    (0 <= shr_m r)%Z ->
    shr_m (iter_pos shr_1 n r) = (shr_m r / 2 ^ Z.pos n)%Z.
Proof.
  assert (D : forall z, (0 <= z)%Z -> (0 <= Z.div2 z)%Z).
  { intros z Hz. rewrite Z.div2_div. apply Z.div_pos; lia. }
  induction n as [n IH|n IH|]; intros r Hr; cbn [iter_pos].
  - rewrite IH, IH, shr_1_m by
      (try (rewrite IH by (rewrite shr_1_m by exact Hr; apply D; exact Hr);
            apply Z.div_pos; [rewrite shr_1_m by exact Hr; apply D; exact Hr | lia]);
       try (rewrite shr_1_m by exact Hr; apply D; exact Hr); exact Hr).
    rewrite Z.div2_div, !Z.div_div by lia.
    f_equal. rewrite <- Z.pow_add_r by lia. rewrite <- (Z.pow_1_r 2) at 1.
    rewrite <- Z.pow_add_r by lia. f_equal. lia.
  - rewrite IH, IH by
      (try (rewrite IH by exact Hr; apply Z.div_pos; [exact Hr | lia]); exact Hr).
    rewrite Z.div_div by lia. f_equal. rewrite <- Z.pow_add_r by lia. f_equal. lia.
  - rewrite shr_1_m by exact Hr. rewrite Z.div2_div. reflexivity.
Qed.

Lemma fexp_emin (z : Z) : (emin <= fexp prec emax z)%Z.
Proof. unfold fexp. lia. Qed.

Lemma shr_record_of_loc_m (m : Z) (l : location) : shr_m (shr_record_of_loc m l) = m.
Proof. destruct l as [|[]]; reflexivity. Qed.

Lemma shr_fexp_positive (m : positive) (e : Z) (l : location) :
  (emin <= e)%Z ->
  (0 < shr_m (fst (shr_fexp prec emax (Z.pos m) e l)))%Z
  /\ (emin <= snd (shr_fexp prec emax (Z.pos m) e l))%Z.
Proof.
  intros He. unfold shr_fexp, shr. cbn [Zdigits2].
  destruct (fexp prec emax (Z.pos (digits2_pos m) + e) - e)%Z as [|p|p] eqn:E;
    cbn [fst snd]; rewrite ?shr_record_of_loc_m; try (split; lia).
  rewrite iter_shr_1_m by (rewrite shr_record_of_loc_m; lia).
  rewrite shr_record_of_loc_m. split; [|lia].
  apply Z.div_str_pos. split; [apply Z.pow_pos_nonneg; lia|].
  pose proof (digits2_pos_lower m) as L.
  apply Z.le_trans with (2 := L). apply Z.pow_le_mono_r; [lia|].
  unfold fexp, SpecFloat.emin, prec, emax in *. lia.
Qed.

Lemma round_nearest_even_positive (m : Z) (l : location) :
  (0 < m)%Z -> (0 < round_nearest_even m l)%Z.
Proof.
  intros H. destruct l as [|[]]; cbn [round_nearest_even]; try lia.
  destruct (Z.even m); lia.
Qed.

Lemma binary_round_aux_not_zero (s : bool) (m : positive) (e : Z) (l : location) :
  (emin <= e)%Z ->
  SFeqb (binary_round_aux prec emax s (Z.pos m) e l) (S754_zero false) = false.
Proof.
  intros He. unfold binary_round_aux.
  destruct (shr_fexp_positive m e l He) as [P1 E1].
  destruct (shr_fexp prec emax (Z.pos m) e l) as [r1 e1]. cbn [fst snd] in P1, E1.
  pose proof (round_nearest_even_positive _ (loc_of_shr_record r1) P1) as P2.
  destruct (round_nearest_even (shr_m r1) (loc_of_shr_record r1)) as [|q|q];
    try lia.
  destruct (shr_fexp_positive q e1 loc_Exact E1) as [P3 _].
  destruct (shr_fexp prec emax (Z.pos q) e1 loc_Exact) as [r2 e2]. cbn [fst] in P3.
  destruct (shr_m r2) as [|k|k]; try lia.
  destruct (e2 <=? emax - prec)%Z; destruct s; reflexivity.
Qed.

Lemma binary_round_not_zero (s : bool) (m : positive) (e : Z) :
  (emin <= e)%Z ->
  SFeqb (binary_round prec emax s m e) (S754_zero false) = false.
Proof.
  intros He. unfold binary_round, shl_align.
  destruct (fexp prec emax (Z.pos (digits2_pos m) + e) - e)%Z eqn:E;
    apply binary_round_aux_not_zero; try exact He.
  apply fexp_emin.
Qed.

Lemma valid_finite_canonical (s : bool) (m : positive) (e : Z) :
  valid_binary (S754_finite s m e) = true ->
  fexp prec emax (Z.pos (digits2_pos m) + e) = e.
Proof.
  cbn [SpecFloat.valid_binary]. unfold bounded, canonical_mantissa.
  intros H. apply andb_true_iff in H. destruct H as [H _].
  apply Z.eqb_eq in H. exact H.
Qed.

Lemma shl_align_digits (m : positive) (e ez : Z) :
  (ez <= e)%Z ->
  (Z.pos (digits2_pos (fst (shl_align m e ez))) = Z.pos (digits2_pos m) + (e - ez))%Z.
Proof.
  intros H. unfold shl_align. destruct (ez - e)%Z as [|p|p] eqn:E; cbn [fst]; try lia.
  rewrite digits2_pos_shift. lia.
Qed.

Lemma shl_align_same (m : positive) (e : Z) : fst (shl_align m e e) = m.
Proof. unfold shl_align. rewrite Z.sub_diag. reflexivity. Qed.

Lemma SFsub_finite_not_zero (sx : bool) (mx : positive) (ex : Z)
    (sy : bool) (my : positive) (ey : Z) :
  valid_binary (S754_finite sx mx ex) = true ->
  valid_binary (S754_finite sy my ey) = true ->
  SFeqb (S754_finite sx mx ex) (S754_finite sy my ey) = false ->
  SFeqb (SFsub prec emax (S754_finite sx mx ex) (S754_finite sy my ey))
    (S754_zero false) = false.
Proof.
  intros Vx Vy Hne.
  pose proof (valid_finite_canonical _ _ _ Vx) as Cx.
  pose proof (valid_finite_canonical _ _ _ Vy) as Cy.
  assert (Ex : (emin <= ex)%Z) by (rewrite <- Cx; apply fexp_emin).
  assert (Ey : (emin <= ey)%Z) by (rewrite <- Cy; apply fexp_emin).
  cbn [SFsub]. set (ez := Z.min ex ey).
  assert (Ez : (emin <= ez)%Z) by (unfold ez; lia).
  set (A := fst (shl_align mx ex ez)). set (B := fst (shl_align my ey ez)).
  destruct (cond_Zopp sx (Z.pos A) - cond_Zopp sy (Z.pos B))%Z as [|p|p] eqn:D;
    cbn [binary_normalize]; try (apply binary_round_not_zero; exact Ez).
  exfalso.
  assert (Hs : sx = sy /\ A = B).
  { destruct sx, sy; cbn [cond_Zopp] in D; split; try reflexivity; try lia. }
  destruct Hs as [-> HAB].
  pose proof (shl_align_digits mx ex ez ltac:(unfold ez; lia)) as DA.
  pose proof (shl_align_digits my ey ez ltac:(unfold ez; lia)) as DB.
  fold A in DA. fold B in DB. rewrite HAB in DA.
  assert (Hexp : ex = ey).
  { rewrite <- Cx, <- Cy. f_equal. lia. }
  subst ey. unfold A, B, ez in HAB. rewrite Z.min_id, !shl_align_same in HAB. subst my.
  unfold SFeqb in Hne. cbn [SFcompare] in Hne.
  destruct sy; rewrite Z.compare_refl, Pos.compare_cont_refl in Hne; discriminate.
Qed.

Lemma sub_not_zero (a b : double) : (a =? b) = false -> (a - b =? 0) = false.
Proof.
  rewrite !eqb_spec, sub_spec. change (Prim2SF 0) with (S754_zero false).
  pose proof (Prim2SF_valid a) as Va. pose proof (Prim2SF_valid b) as Vb.
  destruct (Prim2SF a) as [sa|sa| |sa ma ea], (Prim2SF b) as [sb|sb| |sb mb eb];
    try (intros _; reflexivity);
    try (intros H; destruct sa, sb; try reflexivity; discriminate H);
    try (intros _; destruct sa; reflexivity);
    try (intros _; destruct sb; reflexivity).
  apply SFsub_finite_not_zero; assumption.
Qed.

(** * Further facts about doubles *)

Lemma gtb_nan_l (res : double) : gtb nan res = false.
Proof.
  unfold gtb. rewrite ltb_spec. change (Prim2SF nan) with S754_nan.
  unfold SFltb. destruct (Prim2SF res); reflexivity.
Qed.

Lemma gtb_nan_r (x : double) : gtb x nan = false.
Proof.
  unfold gtb. rewrite ltb_spec. change (Prim2SF nan) with S754_nan. reflexivity.
Qed.

Lemma sub_nan_l (x : double) : nan - x = nan.
Proof.
  apply Prim2SF_inj. rewrite sub_spec. change (Prim2SF nan) with S754_nan. reflexivity.
Qed.

Lemma gtb_ABS_negative_tolerance (v res : double) :
  (res <? 0) = true -> (v =? v) = true -> gtb (ABS v) res = true.
Proof.
  unfold gtb. rewrite !ltb_spec, eqb_spec, ABS_spec.
  change (Prim2SF 0) with (S754_zero false). unfold SFltb, SFeqb.
  destruct (Prim2SF v) as [s|s| |s m e], (Prim2SF res) as [t|t| |t n k];
    simpl; try discriminate; try (destruct t; simpl; congruence);
    try (destruct s; simpl; congruence).
Qed.

(** * Lists *)

Lemma firstn_snoc_nth_error {A : Type} (l : list A) :
  forall (k : nat) (x : A),
    nth_error l k = Some x ->
    firstn (S k) l = firstn k l ++ [x] /\ (S k <= List.length l)%nat.
Proof.
  induction l as [|a l IH]; intros [|k] x H; try discriminate.
  - injection H as ->. split; [reflexivity | simpl; lia].
  - cbn [nth_error] in H. destruct (IH k x H) as [E L]. split.
    + change (firstn (S (S k)) (a :: l)) with (a :: firstn (S k) l).
      rewrite E. reflexivity.
    + simpl. lia.
Qed.

Lemma filled_upto_step (src buf : list double) (k : nat) (x : double) :
  filled_upto src buf k -> rb_ary_entry src k = Some x ->
  filled_upto src (buf ++ [x]) (S k).
Proof.
  intros [E _] H. destruct (firstn_snoc_nth_error src k x H) as [E' L].
  split; [rewrite E', E; reflexivity | exact L].
Qed.

Lemma filled_upto_length (src buf : list double) (k : nat) :
  filled_upto src buf k -> List.length buf = k.
Proof. intros [E L]. rewrite E, length_firstn. lia. Qed.

Lemma offsets_accepted_snoc (ds : list double) :
  forall (prev d : double),
    offsets_accepted prev (ds ++ [d])
    = offsets_accepted prev ds && negb (d <=? last ds prev).
Proof.
  induction ds as [|a ds IH]; intros prev d.
  - simpl. rewrite andb_true_r. reflexivity.
  - change ((a :: ds) ++ [d]) with (a :: (ds ++ [d])).
    cbn [offsets_accepted]. rewrite IH, last_cons, andb_assoc. reflexivity.
Qed.

Lemma dates_checked_step (b : cf_buffers) (d : double) (c lb : list double) :
  dates_checked b -> (d <=? prev_date b) = false ->
  dates_checked {| c_cfs := c; c_dates := c_dates b ++ [d]; c_libor := lb;
                   prev_date := d |}.
Proof.
  intros [A P] H. split; cbn [c_dates prev_date].
  - rewrite offsets_accepted_snoc, A, <- P, H. reflexivity.
  - rewrite last_last. reflexivity.
Qed.

Lemma accepted_numbers_increasing (ds : list double) (prev : double) :
  (prev =? prev) = true -> all_numbers ds = true ->
  offsets_accepted prev ds = true -> strictly_increasing_from prev ds = true.
Proof.
  intros Hp Hn Ha. destruct (strictly_increasing_from prev ds) eqn:E; [reflexivity|].
  rewrite (not_increasing_rejected ds prev Hp Hn E) in Ha. discriminate.
Qed.

Section Marshalling.
Variables cfs dates libor : list double.

Lemma marshal_cf_filled (m : nat) :
  forall (k : nat) (b b' : cf_buffers),
    marshal_cf cfs dates libor (seq k m) b = inr b' ->
    filled_upto cfs (c_cfs b) k -> filled_upto dates (c_dates b) k ->
    filled_upto libor (c_libor b) k -> dates_checked b ->
    filled_upto cfs (c_cfs b') (k + m) /\ filled_upto dates (c_dates b') (k + m)
    /\ filled_upto libor (c_libor b') (k + m) /\ dates_checked b'.
Proof.
  induction m as [|m IH]; intros k b b' H Fc Fd Fl D.
  - injection H as <-. rewrite Nat.add_0_r. auto.
  - cbn [seq marshal_cf] in H.
    destruct (rb_ary_entry cfs k) as [c|] eqn:Ec; [|discriminate].
    destruct (rb_ary_entry dates k) as [d|] eqn:Ed; [|discriminate].
    destruct (d <=? prev_date b) eqn:Ck; [discriminate|].
    destruct (rb_ary_entry libor k) as [r|] eqn:El; [|discriminate].
    apply IH in H.
    + rewrite Nat.add_succ_r. exact H.
    + apply filled_upto_step; assumption.
    + apply filled_upto_step; assumption.
    + apply filled_upto_step; assumption.
    + apply dates_checked_step; assumption.
Qed.

Lemma marshal_irr_filled (m : nat) :
  forall (k : nat) (b b' : cf_buffers),
    marshal_irr cfs dates (seq k m) b = inr b' ->
    filled_upto cfs (c_cfs b) k -> filled_upto dates (c_dates b) k ->
    dates_checked b ->
    filled_upto cfs (c_cfs b') (k + m) /\ filled_upto dates (c_dates b') (k + m)
    /\ dates_checked b'.
Proof.
  induction m as [|m IH]; intros k b b' H Fc Fd D.
  - injection H as <-. rewrite Nat.add_0_r. auto.
  - cbn [seq marshal_irr] in H.
    destruct (rb_ary_entry cfs k) as [c|] eqn:Ec; [|discriminate].
    destruct (rb_ary_entry dates k) as [d|] eqn:Ed; [|discriminate].
    destruct (d <=? prev_date b) eqn:Ck; [discriminate|].
    apply IH in H.
    + rewrite Nat.add_succ_r. exact H.
    + apply filled_upto_step; assumption.
    + apply filled_upto_step; assumption.
    + apply dates_checked_step; assumption.
Qed.

(** The loops read the arrays at the indices they visit and nowhere else. *)
Lemma marshal_cf_ext (cfs' dates' libor' : list double) (idx : list nat) :
  (forall i, In i idx ->
     rb_ary_entry cfs i = rb_ary_entry cfs' i
     /\ rb_ary_entry dates i = rb_ary_entry dates' i
     /\ rb_ary_entry libor i = rb_ary_entry libor' i) ->
  forall b, marshal_cf cfs dates libor idx b = marshal_cf cfs' dates' libor' idx b.
Proof.
  induction idx as [|i idx IH]; intros H b; [reflexivity|].
  cbn [marshal_cf]. destruct (H i (or_introl eq_refl)) as [-> [-> ->]].
  destruct (rb_ary_entry cfs' i) as [c|]; [|reflexivity].
  destruct (rb_ary_entry dates' i) as [d|]; [|reflexivity].
  destruct (d <=? prev_date b); [reflexivity|].
  destruct (rb_ary_entry libor' i) as [r|]; [|reflexivity].
  apply IH. intros j Hj. apply H. right. exact Hj.
Qed.

Lemma marshal_irr_ext (cfs' dates' : list double) (idx : list nat) :
  (forall i, In i idx ->
     rb_ary_entry cfs i = rb_ary_entry cfs' i
     /\ rb_ary_entry dates i = rb_ary_entry dates' i) ->
  forall b, marshal_irr cfs dates idx b = marshal_irr cfs' dates' idx b.
Proof.
  induction idx as [|i idx IH]; intros H b; [reflexivity|].
  cbn [marshal_irr]. destruct (H i (or_introl eq_refl)) as [-> ->].
  destruct (rb_ary_entry cfs' i) as [c|]; [|reflexivity].
  destruct (rb_ary_entry dates' i) as [d|]; [|reflexivity].
  destruct (d <=? prev_date b); [reflexivity|].
  apply IH. intros j Hj. apply H. right. exact Hj.
Qed.

End Marshalling.

Lemma rb_ary_entry_firstn (l : list double) (n i : nat) :
  In i (seq 0 n) -> rb_ary_entry l i = rb_ary_entry (firstn n l) i.
Proof.
  intros H. apply in_seq in H. unfold rb_ary_entry. rewrite nth_error_firstn.
  destruct (i <? n)%nat eqn:E; [reflexivity|]. apply Nat.ltb_ge in E. lia.
Qed.

Section MoreSecantFacts.
Variable f : double -> double.
Variable res : double.
Variable max_tries : Z.

(** Both residuals kept in the locals are the residuals at the two trial
    points kept with them. *)
Lemma secant_while_residuals (fuel : nat) :
  forall (l : secant_locals) (e : loop_exit),
    secant_while f res max_tries fuel l = Some e ->
    f_n l = f (x_n l) -> f_n_minus_1 l = f (x_n_minus_1 l) ->
    f_n (exit_locals e) = f (x_n (exit_locals e))
    /\ f_n_minus_1 (exit_locals e) = f (x_n_minus_1 (exit_locals e)).
Proof.
  induction fuel as [|k IH]; intros l e H H1 H2; rewrite secant_while_unfold in H;
    destruct (guard res max_tries l); try (injection H as <-; split; assumption);
    destruct (degenerate l); try (injection H as <-; split; assumption).
  - discriminate.
  - apply IH in H; [exact H | reflexivity | exact H1].
Qed.

Lemma outcome_updates (e : loop_exit) :
  secant_run f res max_tries (secant_fuel max_tries) = Some e ->
  match outcome_of max_tries e with
  | Solved _ | DegenerateStep => (0 <= updates_done e < max_tries)%Z
  | NonConvergence => updates_done e = Z.max 0 max_tries
  end.
Proof.
  intros H.
  pose proof (secant_while_trials _ _ _ _ _ _ H) as T.
  pose proof (secant_while_exit _ _ _ _ _ _ H) as X.
  change (trials (secant_init f)) with 0%Z in T.
  destruct e as [l|l]; unfold updates_done in *; cbn [exit_locals outcome_of] in *.
  - destruct X as [G _]. unfold guard in G. apply andb_true_iff in G.
    destruct G as [_ G]. apply Z.ltb_lt in G. lia.
  - destruct (trials l >=? max_tries)%Z eqn:E; rewrite Z.geb_leb in E.
    + apply Z.leb_le in E. lia.
    + apply Z.leb_gt in E. lia.
Qed.

Lemma degenerate_exit (l : secant_locals) :
  secant_run f res max_tries (secant_fuel max_tries) = Some (ReturnedInLoop l) ->
  f_n l = f (x_n l) /\ f_n_minus_1 l = f (x_n_minus_1 l)
  /\ (f (x_n l) =? f (x_n_minus_1 l)) = true
  /\ gtb (ABS (f (x_n l))) res = true
  /\ (0 <= trials l < max_tries)%Z.
Proof.
  intros H.
  destruct (secant_while_residuals _ _ _ H eq_refl eq_refl) as [R1 R2].
  pose proof (secant_while_exit _ _ _ _ _ _ H) as [G D].
  pose proof (secant_while_trials _ _ _ _ _ _ H) as T.
  change (trials (secant_init f)) with 0%Z in T. unfold updates_done in T.
  cbn [exit_locals] in *. unfold guard in G. apply andb_true_iff in G.
  destruct G as [G1 G2]. apply Z.ltb_lt in G2. unfold degenerate in D.
  rewrite R1, R2 in D. rewrite R1 in G1. repeat split; try assumption; lia.
Qed.

Lemma negative_tolerance (x : double) :
  (res <? 0) = true ->
  secant_outcome f res max_tries = Some (Solved x) ->
  (f x =? f x) = false.
Proof.
  intros Hneg H. destruct (solved_residual f res max_tries x H) as [_ [G _]].
  destruct (f x =? f x) eqn:E; [|reflexivity].
  rewrite (gtb_ABS_negative_tolerance _ _ Hneg E) in G. discriminate.
Qed.

End MoreSecantFacts.

(** * Further properties of the code *)

(** X1. With [num_cfs <= 0] both present-value functions return [-997.0]
    whatever the trial rate, clean flag or accrued interest, and the cores
    take it for a present value: with [max_tries >= 1], [_backsolve_cf]
    returns [-999.0] when [ABS(target_px + 997.0) > res] and the seed
    [0.0625] otherwise, and [_backsolve_irr] returns [-999.0] when
    [997.0 > res] and [0.0625] otherwise. *)
Theorem empty_stream_in_the_core (pow : double -> double -> double)
    (cfs dates libor : list double) (num_cfs : Z) (target_px res : double)
    (max_tries : Z) (is_clean : bool) (accrued_interest year_convention : double) :
  (num_cfs <= 0)%Z -> (1 <= max_tries)%Z ->
  (forall x, _compute_pv cfs dates libor num_cfs is_clean accrued_interest
               year_convention x = -997.0)
  /\ (forall x, _compute_pv_for_irr pow cfs dates num_cfs is_clean accrued_interest x
                = -997.0)
  /\ _backsolve_cf cfs dates libor num_cfs target_px res max_tries is_clean
       accrued_interest year_convention
     = (if gtb (ABS (target_px - -997.0)) res then -999.0 else 0.0625)
  /\ _backsolve_irr pow cfs dates num_cfs res max_tries is_clean accrued_interest
     = (if gtb 997.0 res then -999.0 else 0.0625).
Proof.
  intros Hn Hm.
  assert (Z0 : (0 <? num_cfs)%Z = false) by (apply Z.ltb_ge; exact Hn).
  assert (P1 : forall x, _compute_pv cfs dates libor num_cfs is_clean accrued_interest
                           year_convention x = -997.0).
  { intros x. unfold _compute_pv. rewrite Z0. reflexivity. }
  assert (P2 : forall x, _compute_pv_for_irr pow cfs dates num_cfs is_clean
                           accrued_interest x = -997.0).
  { intros x. unfold _compute_pv_for_irr. rewrite Z0. reflexivity. }
  split; [exact P1|]. split; [exact P2|]. split.
  - unfold _backsolve_cf.
    set (f := cf_residual cfs dates libor num_cfs target_px is_clean accrued_interest
                year_convention).
    assert (F : forall x, f x = target_px - -997.0).
    { intros x. unfold f, cf_residual. rewrite P1. reflexivity. }
    destruct (gtb (ABS (target_px - -997.0)) res) eqn:G.
    + apply seed_degenerate; [exact Hm | rewrite !F; reflexivity | rewrite F; exact G].
    + apply seed_not_above_tolerance; [exact Hm | rewrite F; exact G].
  - unfold _backsolve_irr.
    set (f := irr_residual pow cfs dates num_cfs is_clean accrued_interest).
    assert (F : forall x, f x = 997.0).
    { intros x. unfold f, irr_residual. rewrite P2. reflexivity. }
    change (gtb 997.0 res) with (gtb (ABS 997.0) res).
    destruct (gtb (ABS 997.0) res) eqn:G.
    + apply seed_degenerate; [exact Hm | rewrite !F; reflexivity | rewrite F; exact G].
    + apply seed_not_above_tolerance; [exact Hm | rewrite F; exact G].
Qed.

Lemma empty_stream_in_the_core_witness :
  (0 <= 0)%Z /\ (1 <= 50)%Z
  /\ _backsolve_cf [] [] [] 0 100 1e-6 50 true 3 360 = -999.0
  /\ _backsolve_cf [] [] [] 0 (-997.0) 1e-6 50 true 3 360 = 0.0625
  /\ _backsolve_irr pow_whole [] [] 0 1e-6 50 false 0 = -999.0.
Proof.
  split; [lia|]. split; [lia|]. split; [|split].
  - apply (empty_stream_in_the_core pow_whole [] [] [] 0 100 1e-6 50 true 3 360); lia.
  - apply (empty_stream_in_the_core pow_whole [] [] [] 0 (-997.0) 1e-6 50 true 3 360);
      lia.
  - apply (empty_stream_in_the_core pow_whole [] [] [] 0 100 1e-6 50 false 0 360); lia.
Defined.

(** X2. With [max_tries <= 0] the loop of either core is never entered
    and [-998.0] is returned, for every stream, target and tolerance, the
    residual at the seed being within the tolerance or not; on a non-empty
    stream whose offsets pass the date test both exported functions then
    raise the runtime error "failed to converge". *)
Theorem no_tries_is_non_convergence (pow : double -> double -> double) (s : stream)
    (cfs dates libor : list double) (num_cfs : Z) (target_px res : double)
    (max_tries : Z) (is_clean : bool) (accrued_interest year_convention : double) :
  (max_tries <= 0)%Z ->
  _backsolve_cf cfs dates libor num_cfs target_px res max_tries is_clean
    accrued_interest year_convention = -998.0
  /\ _backsolve_irr pow cfs dates num_cfs res max_tries is_clean accrued_interest
     = -998.0
  /\ (s <> [] -> offsets_accepted 0 (dayOffsets s) = true ->
      backsolve_cf (amounts s) (dayOffsets s) (referenceRates s) (entries s)
        target_px res max_tries is_clean accrued_interest year_convention
      = RbRaise eRuntimeError msg_converge
      /\ backsolve_irr pow (amounts s) (dayOffsets s) (entries s) res max_tries
           is_clean accrued_interest = RbRaise eRuntimeError msg_converge).
Proof.
  intros Hm. split; [apply no_tries_allowed; exact Hm|].
  split; [apply no_tries_allowed; exact Hm|].
  intros Hs Ha.
  rewrite (backsolve_cf_stream s target_px res max_tries is_clean accrued_interest
             year_convention Hs), Ha.
  rewrite (backsolve_irr_stream pow s res max_tries is_clean accrued_interest Hs), Ha.
  unfold _backsolve_cf, _backsolve_irr.
  rewrite (no_tries_allowed
             (cf_residual (amounts s) (dayOffsets s) (referenceRates s) (entries s)
                target_px is_clean accrued_interest year_convention)
             res max_tries Hm).
  rewrite (no_tries_allowed
             (irr_residual pow (amounts s) (dayOffsets s) (entries s) is_clean
                accrued_interest) res max_tries Hm).
  split; reflexivity.
Qed.

Lemma no_tries_is_non_convergence_witness :
  let s := [mk_entry 106.25 365 0] in
  (-3 <= 0)%Z
  /\ _backsolve_cf (amounts s) (dayOffsets s) (referenceRates s) (entries s)
       100 1e-6 (-3) false 0 365 = -998.0
  /\ (ABS (100 - _compute_pv (amounts s) (dayOffsets s) (referenceRates s) (entries s)
                   false 0 365 0.0625) <=? 1e-6) = true
  /\ backsolve_cf (amounts s) (dayOffsets s) (referenceRates s) (entries s)
       100 1e-6 (-3) false 0 365 = RbRaise eRuntimeError msg_converge.
Proof.
  cbv zeta. split; [lia|]. split; [|split; [reflexivity|]].
  - apply (no_tries_is_non_convergence pow_whole [mk_entry 106.25 365 0]
             [106.25] [365] [0] 1 100 1e-6 (-3) false 0 365). lia.
  - apply (no_tries_is_non_convergence pow_whole [mk_entry 106.25 365 0]
             [106.25] [365] [0] 1 100 1e-6 (-3) false 0 365);
      [lia | discriminate | reflexivity].
Defined.

(** X3. Which return statement ends a run tells how many secant updates it
    made: the in-loop [return -999.0] and the final [return x_n] are reached
    after fewer than [max_tries] updates (so neither is reached unless
    [max_tries >= 1]), and the post-loop [return -998.0] is reached after
    exactly [max_tries] updates, none when [max_tries] is not positive.  This
    is about the statement that returns, not about the double returned: the
    [x_n] of the final return can itself be [-998.0] or [-999.0].  The loop is
    the same in both backsolvers; [f] is the residual function of either. *)
Theorem return_path_tells_updates (f : double -> double) (res : double)
    (max_tries : Z) (e : loop_exit) :
  secant_run f res max_tries (secant_fuel max_tries) = Some e ->
  match e with
  | ReturnedInLoop l =>
      secant_solve f res max_tries = -999.0 /\ (0 <= trials l < max_tries)%Z
  | GuardFailed l =>
      if (trials l >=? max_tries)%Z
      then secant_solve f res max_tries = -998.0 /\ trials l = Z.max 0 max_tries
      else secant_solve f res max_tries = x_n l /\ (0 <= trials l < max_tries)%Z
  end.
Proof.
  intros H. pose proof (outcome_updates f res max_tries e H) as U.
  rewrite (secant_solve_run _ _ _ _ H).
  destruct e as [l|l]; unfold updates_done in U; cbn [exit_locals outcome_of] in U;
    cbn [secant_return].
  - split; [reflexivity | exact U].
  - destruct (trials l >=? max_tries)%Z; split; try reflexivity; exact U.
Qed.

Lemma return_path_tells_updates_witness :
  let f := cf_residual [5; 5; 105] [365; 730; 1095] [0.03; 0.03; 0.03] 3 100
             false 0 365 in
  let l := {| x_n_minus_1 := 0.020262964185440123; x_n := 0.020001607231688957;
              f_n_minus_1 := 0.071576398552693377; f_n := 0.00043768773480223899;
              trials := 3 |} in
  secant_run f 1e-9 3 (secant_fuel 3) = Some (GuardFailed l)
  /\ secant_solve f 1e-9 3 = -998.0
  /\ trials l = 3%Z.
Proof.
  cbv zeta.
  assert (He : secant_run
                 (cf_residual [5; 5; 105] [365; 730; 1095] [0.03; 0.03; 0.03] 3 100
                    false 0 365) 1e-9 3 (secant_fuel 3)
               = Some (GuardFailed
                         {| x_n_minus_1 := 0.020262964185440123;
                            x_n := 0.020001607231688957;
                            f_n_minus_1 := 0.071576398552693377;
                            f_n := 0.00043768773480223899;
                            trials := 3 |}))
    by (vm_compute; reflexivity).
  split; [exact He|]. exact (return_path_tells_updates _ _ _ _ He).
Defined.

(** The final [return x_n] can yield a sentinel: here it returns [-998.0]
    after 4 updates, with 100 allowed. *)
Example final_return_can_yield_a_sentinel :
  let f := cf_residual [100.00000000002832] [1] [998.05] 1 99.99986301388337
             false 0 36500 in
  exists l,
    secant_run f 1e-9 100 (secant_fuel 100) = Some (GuardFailed l)
    /\ trials l = 4%Z /\ x_n l = -998.0
    /\ secant_solve f 1e-9 100 = -998.0.
Proof.
  cbv zeta. eexists. split; [vm_compute; reflexivity|].
  repeat split; vm_compute; reflexivity.
Qed.

(** X4. A degenerate step is signalled only at two trial points whose
    residuals are numbers, equal under [==], and above the tolerance under
    [ABS], and only after fewer than [max_tries] updates: never when the
    residual at the latest trial point is within the tolerance or a NaN. *)
Theorem degenerate_step_only_on_equal_residuals (f : double -> double)
    (res : double) (max_tries : Z) (l : secant_locals) :
  secant_run f res max_tries (secant_fuel max_tries) = Some (ReturnedInLoop l) ->
  f_n l = f (x_n l) /\ f_n_minus_1 l = f (x_n_minus_1 l)
  /\ (f (x_n l) =? f (x_n_minus_1 l)) = true
  /\ (f (x_n l) =? f (x_n l)) = true
  /\ gtb (ABS (f (x_n l))) res = true
  /\ (ABS (f (x_n l)) <=? res) = false
  /\ (0 <= trials l < max_tries)%Z.
Proof.
  intros H. destruct (degenerate_exit f res max_tries l H) as [R1 [R2 [D [G T]]]].
  repeat split; try assumption; try lia.
  - exact (gtb_ABS_number _ _ G).
  - destruct (ABS (f (x_n l)) <=? res) eqn:E; [|reflexivity].
    rewrite (leb_gtb_false _ _ E) in G. discriminate.
Qed.

Lemma degenerate_step_only_on_equal_residuals_witness :
  let f := cf_residual [100] [365] [0] 1 200 false 0 365 in
  let l := {| x_n_minus_1 := 5.0687748327326597e+18; x_n := -2.8265575709429506e+30;
              f_n_minus_1 := 200; f_n := 200; trials := 13 |} in
  secant_run f 1e-6 1000 (secant_fuel 1000) = Some (ReturnedInLoop l)
  /\ (f (x_n l) =? f (x_n_minus_1 l)) = true
  /\ (0 <= trials l < 1000)%Z.
Proof.
  cbv zeta.
  assert (He : secant_run (cf_residual [100] [365] [0] 1 200 false 0 365) 1e-6 1000
                 (secant_fuel 1000)
               = Some (ReturnedInLoop
                         {| x_n_minus_1 := 5.0687748327326597e+18;
                            x_n := -2.8265575709429506e+30;
                            f_n_minus_1 := 200; f_n := 200; trials := 13 |}))
    by (vm_compute; reflexivity).
  split; [exact He|].
  destruct (degenerate_step_only_on_equal_residuals _ _ _ _ He)
    as [_ [_ [D [_ [_ [_ T]]]]]].
  split; [exact D | exact T].
Defined.

(** X5. The secant quotient never has a zero denominator: in any locals,
    either the test [f_n == f_n_minus_1] holds, and the body returns before
    the quotient, or [f_n - f_n_minus_1 == 0] is false. *)
Theorem secant_denominator_not_zero (l : secant_locals) :
  degenerate l = true \/ (f_n l - f_n_minus_1 l =? 0) = false.
Proof.
  unfold degenerate. destruct (f_n l =? f_n_minus_1 l) eqn:E; [left; reflexivity|].
  right. apply sub_not_zero. exact E.
Qed.

(** X6. A NaN tolerance, or a NaN target price, makes a run with
    [max_tries >= 1] a success that returns the seed [0.0625], for every
    stream: the test [ABS(f_n) > res] is false at once. *)
Theorem nan_tolerance_or_target_returns_seed (pow : double -> double -> double)
    (cfs dates libor : list double) (num_cfs : Z) (target_px res : double)
    (max_tries : Z) (is_clean : bool) (accrued_interest year_convention : double) :
  (1 <= max_tries)%Z ->
  _backsolve_cf cfs dates libor num_cfs target_px nan max_tries is_clean
    accrued_interest year_convention = 0.0625
  /\ _backsolve_irr pow cfs dates num_cfs nan max_tries is_clean accrued_interest
     = 0.0625
  /\ _backsolve_cf cfs dates libor num_cfs nan res max_tries is_clean
       accrued_interest year_convention = 0.0625.
Proof.
  intros Hm. split; [|split].
  - apply seed_not_above_tolerance; [exact Hm | apply gtb_nan_r].
  - apply seed_not_above_tolerance; [exact Hm | apply gtb_nan_r].
  - apply seed_not_above_tolerance; [exact Hm|].
    unfold cf_residual. rewrite sub_nan_l. apply gtb_nan_l.
Qed.

Lemma nan_tolerance_or_target_returns_seed_witness :
  (1 <= 20)%Z
  /\ _backsolve_cf [5; 105] [365; 730] [0.03; 0.03] 2 100 nan 20 false 0 365 = 0.0625
  /\ backsolve_cf [5; 105] [365; 730] [0.03; 0.03] 2 100 nan 20 false 0 365
     = RbFloat 0.0625.
Proof.
  split; [lia|]. split; [|reflexivity].
  apply (nan_tolerance_or_target_returns_seed pow_whole [5; 105] [365; 730]
           [0.03; 0.03] 2 100 0 20 false 0 365). lia.
Defined.

(** X7. With a negative tolerance a run is never solved at a trial point
    whose residual is a number: a solved outcome then has a NaN residual. *)
Theorem negative_tolerance_solves_only_on_nan (f : double -> double)
    (res : double) (max_tries : Z) (x : double) :
  (res <? 0) = true ->
  secant_outcome f res max_tries = Some (Solved x) ->
  (f x =? f x) = false.
Proof. apply negative_tolerance. Qed.

Lemma negative_tolerance_solves_only_on_nan_witness :
  let f := cf_residual [nan] [365] [0] 1 100 false 0 365 in
  (-1 <? 0) = true
  /\ secant_outcome f (-1) 10 = Some (Solved 0.0625)
  /\ (f 0.0625 =? f 0.0625) = false.
Proof.
  cbv zeta. split; [reflexivity|]. split; [reflexivity|].
  apply (negative_tolerance_solves_only_on_nan
           (cf_residual [nan] [365] [0] 1 100 false 0 365) (-1) 10 0.0625);
    reflexivity.
Defined.

(** * Only the first [num_cfs] entries count *)

Lemma fold_left_ext_in {A B : Type} (g h : A -> B -> A) (l : list B) :
  (forall a i, In i l -> g a i = h a i) ->
  forall a, fold_left g l a = fold_left h l a.
Proof.
  induction l as [|i l IH]; intros H a; [reflexivity|].
  cbn [fold_left]. rewrite (H a i (or_introl eq_refl)).
  apply IH. intros a' j Hj. apply H. right. exact Hj.
Qed.

Lemma rd_firstn (l : list double) (n t : nat) :
  In t (seq 0 n) -> rd (firstn n l) t = rd l t.
Proof.
  intros H. apply in_seq in H. unfold rd. rewrite nth_firstn.
  destruct (t <? n)%nat eqn:E; [reflexivity|]. apply Nat.ltb_ge in E. lia.
Qed.

Lemma secant_while_ext (f g : double -> double) (res : double) (max_tries : Z) :
  (forall x, f x = g x) ->
  forall (fuel : nat) (l : secant_locals),
    secant_while f res max_tries fuel l = secant_while g res max_tries fuel l.
Proof.
  intros H. induction fuel as [|k IH]; intros l; [reflexivity|].
  rewrite (secant_while_unfold f), (secant_while_unfold g).
  destruct (guard res max_tries l); [|reflexivity].
  destruct (degenerate l); [reflexivity|].
  replace (secant_update g l) with (secant_update f l)
    by (unfold secant_update; rewrite H; reflexivity).
  apply IH.
Qed.

Lemma secant_solve_ext (f g : double -> double) (res : double) (max_tries : Z) :
  (forall x, f x = g x) -> secant_solve f res max_tries = secant_solve g res max_tries.
Proof.
  intros H. unfold secant_solve, secant_run, secant_init. rewrite !H.
  rewrite (secant_while_ext f g res max_tries H). reflexivity.
Qed.

Lemma compute_pv_firstn (cfs dates libor : list double) (num_cfs : Z)
    (is_clean : bool) (accrued_interest year_convention spread : double) :
  _compute_pv (firstn (Z.to_nat num_cfs) cfs) (firstn (Z.to_nat num_cfs) dates)
    (firstn (Z.to_nat num_cfs) libor) num_cfs is_clean accrued_interest
    year_convention spread
  = _compute_pv cfs dates libor num_cfs is_clean accrued_interest year_convention
      spread.
Proof.
  unfold _compute_pv. destruct (0 <? num_cfs)%Z; [|reflexivity].
  rewrite (fold_left_ext_in
             (pv_body (firstn (Z.to_nat num_cfs) cfs) (firstn (Z.to_nat num_cfs) dates)
                (firstn (Z.to_nat num_cfs) libor) year_convention spread)
             (pv_body cfs dates libor year_convention spread)); [reflexivity|].
  intros a i Hi. unfold pv_body, indices in *. rewrite !rd_firstn by exact Hi.
  reflexivity.
Qed.

Lemma compute_pv_for_irr_firstn (pow : double -> double -> double)
    (cfs dates : list double) (num_cfs : Z)
    (is_clean : bool) (accrued_interest irr : double) :
  _compute_pv_for_irr pow (firstn (Z.to_nat num_cfs) cfs)
    (firstn (Z.to_nat num_cfs) dates) num_cfs is_clean accrued_interest irr
  = _compute_pv_for_irr pow cfs dates num_cfs is_clean accrued_interest irr.
Proof.
  unfold _compute_pv_for_irr. destruct (0 <? num_cfs)%Z eqn:E; [|reflexivity].
  assert (H0 : In 0%nat (seq 0 (Z.to_nat num_cfs))).
  { apply in_seq. apply Z.ltb_lt in E. lia. }
  rewrite (rd_firstn dates _ _ H0).
  rewrite (fold_left_ext_in
             (irr_body pow (firstn (Z.to_nat num_cfs) cfs)
                (firstn (Z.to_nat num_cfs) dates) (rd dates 0) irr)
             (irr_body pow cfs dates (rd dates 0) irr)); [reflexivity|].
  intros a i Hi. unfold irr_body, indices in *. rewrite !rd_firstn by exact Hi.
  reflexivity.
Qed.

(** X8. The cores read the first [num_cfs] cells of their buffers and no
    other: the present values and the solved results are those of the
    buffers cut to [num_cfs] cells. *)
Theorem cores_read_num_cfs_cells (pow : double -> double -> double)
    (cfs dates libor : list double) (num_cfs : Z) (target_px res : double)
    (max_tries : Z) (is_clean : bool) (accrued_interest year_convention : double) :
  let n := Z.to_nat num_cfs in
  (forall x,
      _compute_pv cfs dates libor num_cfs is_clean accrued_interest year_convention x
      = _compute_pv (firstn n cfs) (firstn n dates) (firstn n libor) num_cfs
          is_clean accrued_interest year_convention x)
  /\ (forall x,
      _compute_pv_for_irr pow cfs dates num_cfs is_clean accrued_interest x
      = _compute_pv_for_irr pow (firstn n cfs) (firstn n dates) num_cfs is_clean
          accrued_interest x)
  /\ _backsolve_cf cfs dates libor num_cfs target_px res max_tries is_clean
       accrued_interest year_convention
     = _backsolve_cf (firstn n cfs) (firstn n dates) (firstn n libor) num_cfs
         target_px res max_tries is_clean accrued_interest year_convention
  /\ _backsolve_irr pow cfs dates num_cfs res max_tries is_clean accrued_interest
     = _backsolve_irr pow (firstn n cfs) (firstn n dates) num_cfs res max_tries
         is_clean accrued_interest.
Proof.
  cbv zeta. split; [|split; [|split]].
  - intros x. symmetry. apply compute_pv_firstn.
  - intros x. symmetry. apply compute_pv_for_irr_firstn.
  - apply secant_solve_ext. intros x. unfold cf_residual.
    rewrite compute_pv_firstn. reflexivity.
  - apply secant_solve_ext. intros x. unfold irr_residual.
    rewrite compute_pv_for_irr_firstn. reflexivity.
Qed.

(** X9. The exported functions read the first [num_cfs] entries of the
    Ruby arrays and no other: a call gives what the call on the arrays cut to
    [num_cfs] entries gives, so entries past [num_cfs] are ignored without an
    error. *)
Theorem exported_functions_read_num_cfs_entries (pow : double -> double -> double)
    (cfs dates libor : list double) (num_cfs : Z) (target_px res : double)
    (max_tries : Z) (is_clean : bool) (accrued_interest year_convention : double) :
  let n := Z.to_nat num_cfs in
  backsolve_cf cfs dates libor num_cfs target_px res max_tries is_clean
    accrued_interest year_convention
  = backsolve_cf (firstn n cfs) (firstn n dates) (firstn n libor) num_cfs
      target_px res max_tries is_clean accrued_interest year_convention
  /\ backsolve_irr pow cfs dates num_cfs res max_tries is_clean accrued_interest
     = backsolve_irr pow (firstn n cfs) (firstn n dates) num_cfs res max_tries
         is_clean accrued_interest.
Proof.
  cbv zeta. unfold backsolve_cf, backsolve_irr, indices. split.
  - rewrite (marshal_cf_ext cfs dates libor
               (firstn (Z.to_nat num_cfs) cfs) (firstn (Z.to_nat num_cfs) dates)
               (firstn (Z.to_nat num_cfs) libor)); [reflexivity|].
    intros i Hi. repeat split; apply rb_ary_entry_firstn; exact Hi.
  - rewrite (marshal_irr_ext cfs dates
               (firstn (Z.to_nat num_cfs) cfs) (firstn (Z.to_nat num_cfs) dates));
      [reflexivity|].
    intros i Hi. split; apply rb_ary_entry_firstn; exact Hi.
Qed.

(** X10. When the marshalling loop of an exported function finishes
    without raising, the buffers it hands to the core are the first
    [num_cfs] entries of the arrays, each buffer has exactly [num_cfs] cells
    (what the core assumes), no copied day offset is at or below the one
    before it, 0 before the first, and, when the copied offsets are numbers,
    they are strictly increasing from above 0. *)
Theorem marshalling_establishes_core_assumptions (cfs dates libor : list double)
    (num_cfs : Z) (b : cf_buffers) :
  let n := Z.to_nat num_cfs in
  marshal_cf cfs dates libor (indices num_cfs) cf_buffers_init = inr b
  \/ marshal_irr cfs dates (indices num_cfs) cf_buffers_init = inr b ->
  c_cfs b = firstn n cfs /\ c_dates b = firstn n dates
  /\ List.length (c_cfs b) = n /\ List.length (c_dates b) = n
  /\ (marshal_cf cfs dates libor (indices num_cfs) cf_buffers_init = inr b ->
      c_libor b = firstn n libor /\ List.length (c_libor b) = n)
  /\ offsets_accepted 0 (c_dates b) = true
  /\ (all_numbers (c_dates b) = true ->
      strictly_increasing_from 0 (c_dates b) = true).
Proof.
  cbv zeta. intros H.
  assert (I : filled_upto cfs [] 0 /\ filled_upto dates [] 0 /\ filled_upto libor [] 0
              /\ dates_checked cf_buffers_init).
  { repeat split; simpl; lia. }
  destruct I as [I1 [I2 [I3 I4]]].
  assert (F : filled_upto cfs (c_cfs b) (Z.to_nat num_cfs)
              /\ filled_upto dates (c_dates b) (Z.to_nat num_cfs)
              /\ dates_checked b).
  { destruct H as [H|H].
    - destruct (marshal_cf_filled cfs dates libor _ _ _ _ H I1 I2 I3 I4)
        as [F1 [F2 [_ F4]]]. auto.
    - exact (marshal_irr_filled cfs dates _ _ _ _ H I1 I2 I4). }
  destruct F as [F1 [F2 [A _]]].
  split; [exact (proj1 F1)|]. split; [exact (proj1 F2)|].
  split; [exact (filled_upto_length _ _ _ F1)|].
  split; [exact (filled_upto_length _ _ _ F2)|].
  split.
  - intros Hc. destruct (marshal_cf_filled cfs dates libor _ _ _ _ Hc I1 I2 I3 I4)
      as [_ [_ [F3 _]]].
    split; [exact (proj1 F3) | exact (filled_upto_length _ _ _ F3)].
  - split; [exact A|]. intros Hn.
    apply accepted_numbers_increasing; [reflexivity | exact Hn | exact A].
Qed.

Lemma marshalling_establishes_core_assumptions_witness :
  let b := {| c_cfs := [5; 105]; c_dates := [365; 730]; c_libor := [0.03; 0.035];
              prev_date := 730 |} in
  marshal_cf [5; 105; 7] [365; 730; 100] [0.03; 0.035] (indices 2) cf_buffers_init
  = inr b
  /\ c_cfs b = firstn 2 [5; 105; 7]
  /\ List.length (c_dates b) = 2%nat
  /\ strictly_increasing_from 0 (c_dates b) = true.
Proof.
  cbv zeta.
  assert (H : marshal_cf [5; 105; 7] [365; 730; 100] [0.03; 0.035] (indices 2)
                cf_buffers_init
              = inr {| c_cfs := [5; 105]; c_dates := [365; 730];
                       c_libor := [0.03; 0.035]; prev_date := 730 |})
    by reflexivity.
  split; [exact H|].
  destruct (marshalling_establishes_core_assumptions
              [5; 105; 7] [365; 730; 100] [0.03; 0.035] 2 _ (or_introl H))
    as [C [_ [_ [L [_ [_ S]]]]]].
  split; [exact C|]. split; [exact L|]. apply S. reflexivity.
Defined.

(** X11. A Float returned by an exported function is never one of the
    sentinels: it compares unequal to [-999.0] and to [-998.0], and the call
    had [num_cfs >= 1]. *)
Theorem float_result_is_not_a_sentinel (pow : double -> double -> double)
    (cfs dates libor : list double) (num_cfs : Z) (target_px res : double)
    (max_tries : Z) (is_clean : bool) (accrued_interest year_convention x : double) :
  backsolve_cf cfs dates libor num_cfs target_px res max_tries is_clean
    accrued_interest year_convention = RbFloat x
  \/ backsolve_irr pow cfs dates num_cfs res max_tries is_clean accrued_interest
     = RbFloat x ->
  (x =? -999.0) = false /\ (x =? -998.0) = false /\ (1 <= num_cfs)%Z.
Proof.
  assert (R : forall c, rb_of_c_result c = RbFloat x ->
                        (x =? -999.0) = false /\ (x =? -998.0) = false).
  { intros c H. unfold rb_of_c_result in H.
    destruct (c =? DEGENERATE_STEP) eqn:E1; [discriminate|].
    destruct (c =? NON_CONVERGENCE) eqn:E2; [discriminate|].
    injection H as <-. split; assumption. }
  unfold backsolve_cf, backsolve_irr. intros [H|H];
    destruct (num_cfs <? 1)%Z eqn:N; try discriminate;
    apply Z.ltb_ge in N.
  - destruct (marshal_cf cfs dates libor (indices num_cfs) cf_buffers_init)
      as [[c m]|b]; [discriminate|].
    destruct (R _ H). auto.
  - destruct (marshal_irr cfs dates (indices num_cfs) cf_buffers_init)
      as [[c m]|b]; [discriminate|].
    destruct (R _ H). auto.
Qed.

Lemma float_result_is_not_a_sentinel_witness :
  backsolve_cf [100] [365] [0] 1 100 1e-6 5 false 0 365
  = RbFloat (-2.0599353627418422e-10)
  /\ (-2.0599353627418422e-10 =? -999.0) = false.
Proof.
  assert (H : backsolve_cf [100] [365] [0] 1 100 1e-6 5 false 0 365
              = RbFloat (-2.0599353627418422e-10)) by (vm_compute; reflexivity).
  split; [exact H|].
  exact (proj1 (float_result_is_not_a_sentinel pow_whole [100] [365] [0] 1 100 1e-6 5
                  false 0 365 _ (or_introl H))).
Defined.

(** X12. Under the IRR model the first cash flow is never discounted: for
    a stream with a finite first day offset, and [pow] giving 1 on the
    exponent 0 as C's does, the present value is the first amount plus the
    discounted later entries, whatever the trial yield and however far the
    first entry lies from day zero. *)
Theorem irr_first_cash_flow_undiscounted (pow : double -> double -> double)
    (e0 : entry) (s : stream) (is_clean : bool) (accrued_interest irr : double) :
  (forall x, pow x 0 = 1) ->
  is_finite (dayOffset e0) = true ->
  _compute_pv_for_irr pow (amounts (e0 :: s)) (dayOffsets (e0 :: s))
    (entries (e0 :: s)) is_clean accrued_interest irr
  = clean_adjust is_clean accrued_interest
      (irr_sum pow irr (dayOffset e0) s (0 + amount e0)).
Proof.
  intros Hpow Hfin. unfold _compute_pv_for_irr, clean_adjust.
  rewrite (entries_positive (e0 :: s)) by discriminate. rewrite indices_entries.
  pose proof (irr_loop_sum pow (rd (dayOffsets (e0 :: s)) 0) irr (e0 :: s) [] 0) as L.
  change ([] ++ e0 :: s) with (e0 :: s) in L.
  change (List.length (@nil entry)) with 0%nat in L.
  rewrite L. change (rd (dayOffsets (e0 :: s)) 0) with (dayOffset e0).
  unfold irr_sum. cbn [fold_left].
  assert (D : irr_discount_factor pow irr (dayOffset e0) e0 = 1).
  { unfold irr_discount_factor. rewrite (sub_diag_finite _ Hfin).
    change (0 / 365) with 0. rewrite Hpow. reflexivity. }
  rewrite D, mul_1_r. reflexivity.
Qed.

Lemma irr_first_cash_flow_undiscounted_witness :
  let e0 := mk_entry (-100) 365 0 in
  let s := [mk_entry 5 730 0; mk_entry 105 1095 0] in
  (forall x, pow_whole x 0 = 1)
  /\ is_finite (dayOffset e0) = true
  /\ _compute_pv_for_irr pow_whole (amounts (e0 :: s)) (dayOffsets (e0 :: s))
       (entries (e0 :: s)) false 0 0.05
     = irr_sum pow_whole 0.05 365 s (-100).
Proof.
  cbv zeta. split; [intros x; reflexivity|]. split; [reflexivity|].
  apply (irr_first_cash_flow_undiscounted pow_whole (mk_entry (-100) 365 0)
           [mk_entry 5 730 0; mk_entry 105 1095 0] false 0 0.05);
    [intros x; reflexivity | reflexivity].
Defined.

(** * NaN in the data *)

Lemma add_nan_l (x : double) : nan + x = nan.
Proof. nan_absorbs add_spec x. Qed.
Lemma add_nan_r (x : double) : x + nan = nan.
Proof. nan_absorbs add_spec x. Qed.
Lemma sub_nan_r (x : double) : x - nan = nan.
Proof. nan_absorbs sub_spec x. Qed.
Lemma mul_nan_l (x : double) : nan * x = nan.
Proof. nan_absorbs mul_spec x. Qed.
Lemma mul_nan_r (x : double) : x * nan = nan.
Proof. nan_absorbs mul_spec x. Qed.
Lemma div_nan_l (x : double) : nan / x = nan.
Proof. nan_absorbs div_spec x. Qed.
Lemma div_nan_r (x : double) : x / nan = nan.
Proof. nan_absorbs div_spec x. Qed.

Lemma is_nan_eq (x : double) : is_nan x = true -> x = nan.
Proof.
  unfold is_nan. intros H. destruct (eqb_refl_or_nan x) as [E|E]; [|exact E].
  rewrite E in H. discriminate.
Qed.

Lemma spread_recurrence_nan_value (yc sp : double) (s : stream) :
  forall df p, spread_recurrence yc sp s df p nan = nan.
Proof.
  induction s as [|e s IH]; intros df p; [reflexivity|].
  cbn [spread_recurrence]. rewrite add_nan_l. apply IH.
Qed.

Lemma spread_recurrence_nan_entry (yc sp : double) (s : stream) :
  existsb entry_has_nan s = true ->
  forall df p c, spread_recurrence yc sp s df p c = nan.
Proof.
  induction s as [|e s IH]; intros H df p c; [discriminate|].
  cbn [existsb] in H. cbn [spread_recurrence].
  destruct (entry_has_nan e) eqn:E; [|apply IH; exact H].
  replace (c + amount e * (df / (1 + (referenceRate e + sp) * (dayOffset e - p) / yc)))
    with nan; [apply spread_recurrence_nan_value|].
  unfold entry_has_nan in E. apply orb_true_iff in E. destruct E as [E|E];
    [apply orb_true_iff in E; destruct E as [E|E]|]; apply is_nan_eq in E; rewrite E.
  - rewrite mul_nan_l, add_nan_r. reflexivity.
  - rewrite sub_nan_l, mul_nan_r, div_nan_l, add_nan_r, div_nan_r, mul_nan_r, add_nan_r.
    reflexivity.
  - rewrite add_nan_l, mul_nan_l, div_nan_l, add_nan_r, div_nan_r, mul_nan_r, add_nan_r.
    reflexivity.
Qed.

Lemma irr_sum_nan_value (pow : double -> double -> double) (y d0 : double)
    (s : stream) : irr_sum pow y d0 s nan = nan.
Proof.
  unfold irr_sum. induction s as [|e s IH]; [reflexivity|].
  cbn [fold_left]. rewrite add_nan_l. exact IH.
Qed.

Lemma irr_sum_nan_amount (pow : double -> double -> double) (y d0 : double)
    (s : stream) :
  existsb amount_is_nan s = true -> forall c, irr_sum pow y d0 s c = nan.
Proof.
  induction s as [|e s IH]; intros H c; [discriminate|].
  cbn [existsb] in H. unfold irr_sum. cbn [fold_left].
  fold (irr_sum pow y d0 s (c + amount e * irr_discount_factor pow y d0 e)).
  destruct (amount_is_nan e) eqn:E; [|apply IH; exact H].
  unfold amount_is_nan in E. apply is_nan_eq in E.
  rewrite E, mul_nan_l, add_nan_r. apply irr_sum_nan_value.
Qed.

Lemma nan_residual_returns_seed (f : double -> double) (res : double) (max_tries : Z) :
  (1 <= max_tries)%Z -> f 0.0625 = nan -> secant_solve f res max_tries = 0.0625.
Proof.
  intros Hm H. apply seed_not_above_tolerance; [exact Hm|].
  rewrite H. apply gtb_nan_l.
Qed.

(** X13. A NaN among the amounts, day offsets or reference rates of a
    stream makes the spread-model present value a NaN at every spread, and a
    NaN amount does the same to the IRR-model present value.  The residual
    is then a NaN, the test [ABS(f_n) > res] is false on entry, and with
    [max_tries >= 1] the core returns the seed [0.0625] as if it had solved;
    when the day offsets pass the date test the exported function returns
    the Float [0.0625]. *)
Theorem nan_in_the_stream_returns_seed (pow : double -> double -> double)
    (s : stream) (target_px res : double) (max_tries : Z) (is_clean : bool)
    (accrued_interest year_convention : double) :
  (1 <= max_tries)%Z ->
  (existsb entry_has_nan s = true ->
   (forall x,
       _compute_pv (amounts s) (dayOffsets s) (referenceRates s) (entries s)
         is_clean accrued_interest year_convention x = nan)
   /\ _backsolve_cf (amounts s) (dayOffsets s) (referenceRates s) (entries s)
        target_px res max_tries is_clean accrued_interest year_convention = 0.0625
   /\ (offsets_accepted 0 (dayOffsets s) = true ->
       backsolve_cf (amounts s) (dayOffsets s) (referenceRates s) (entries s)
         target_px res max_tries is_clean accrued_interest year_convention
       = RbFloat 0.0625))
  /\ (existsb amount_is_nan s = true ->
      (forall x,
          _compute_pv_for_irr pow (amounts s) (dayOffsets s) (entries s)
            is_clean accrued_interest x = nan)
      /\ _backsolve_irr pow (amounts s) (dayOffsets s) (entries s) res max_tries
           is_clean accrued_interest = 0.0625
      /\ (offsets_accepted 0 (dayOffsets s) = true ->
          backsolve_irr pow (amounts s) (dayOffsets s) (entries s) res max_tries
            is_clean accrued_interest = RbFloat 0.0625)).
Proof.
  intros Hm. split; intros Hnan.
  - assert (Hs : s <> []) by (intros ->; discriminate).
    assert (P : forall x,
               _compute_pv (amounts s) (dayOffsets s) (referenceRates s) (entries s)
                 is_clean accrued_interest year_convention x = nan).
    { intros x. unfold _compute_pv.
      rewrite (entries_positive s Hs), indices_entries.
      pose proof (pv_loop_recurrence year_convention x s [] pv_init) as L.
      cbn [app List.length] in L. rewrite L.
      rewrite (spread_recurrence_nan_entry _ _ _ Hnan).
      destruct is_clean; [apply sub_nan_l | reflexivity]. }
    assert (S : _backsolve_cf (amounts s) (dayOffsets s) (referenceRates s) (entries s)
                  target_px res max_tries is_clean accrued_interest year_convention
                = 0.0625).
    { apply nan_residual_returns_seed; [exact Hm|].
      unfold cf_residual. rewrite P. apply sub_nan_r. }
    split; [exact P|]. split; [exact S|]. intros Ha.
    rewrite (backsolve_cf_stream s target_px res max_tries is_clean accrued_interest
               year_convention Hs), Ha, S. reflexivity.
  - assert (Hs : s <> []) by (intros ->; discriminate).
    assert (P : forall x,
               _compute_pv_for_irr pow (amounts s) (dayOffsets s) (entries s)
                 is_clean accrued_interest x = nan).
    { intros x. unfold _compute_pv_for_irr.
      rewrite (entries_positive s Hs), indices_entries.
      pose proof (irr_loop_sum pow (rd (dayOffsets s) 0) x s [] 0) as L.
      cbn [app] in L. change (List.length (@nil entry)) with 0%nat in L. rewrite L.
      rewrite (irr_sum_nan_amount _ _ _ _ Hnan).
      destruct is_clean; [apply sub_nan_l | reflexivity]. }
    assert (S : _backsolve_irr pow (amounts s) (dayOffsets s) (entries s) res max_tries
                  is_clean accrued_interest = 0.0625).
    { apply nan_residual_returns_seed; [exact Hm|].
      unfold irr_residual. rewrite P. apply sub_nan_r. }
    split; [exact P|]. split; [exact S|]. intros Ha.
    rewrite (backsolve_irr_stream pow s res max_tries is_clean accrued_interest Hs),
      Ha, S. reflexivity.
Qed.

Lemma nan_in_the_stream_returns_seed_witness :
  let s := [mk_entry 5 365 0.03; mk_entry 105 nan 0.03; mk_entry 7 100 0.03] in
  (1 <= 10)%Z
  /\ existsb entry_has_nan s = true
  /\ offsets_accepted 0 (dayOffsets s) = true
  /\ backsolve_cf (amounts s) (dayOffsets s) (referenceRates s) (entries s)
       100 1e-6 10 false 0 365 = RbFloat 0.0625.
Proof.
  cbv zeta. split; [lia|]. split; [reflexivity|]. split; [reflexivity|].
  destruct (nan_in_the_stream_returns_seed pow_whole
              [mk_entry 5 365 0.03; mk_entry 105 nan 0.03; mk_entry 7 100 0.03]
              100 1e-6 10 false 0 365) as [Hcf _]; [lia|].
  destruct (Hcf eq_refl) as [_ [_ B]]. exact (B eq_refl).
Defined.

(** * The exported functions on arrays of any length *)

Lemma stream_of_columns_columns (cfs : list double) :
  forall dates libor : list double,
    List.length dates = List.length cfs -> List.length libor = List.length cfs ->
    amounts (stream_of_columns cfs dates libor) = cfs
    /\ dayOffsets (stream_of_columns cfs dates libor) = dates
    /\ referenceRates (stream_of_columns cfs dates libor) = libor
    /\ List.length (stream_of_columns cfs dates libor) = List.length cfs.
Proof.
  induction cfs as [|c cfs IH]; intros [|d dates] [|r libor] Hd Hl;
    try discriminate; [repeat split|].
  cbn [List.length] in Hd, Hl. injection Hd as Hd. injection Hl as Hl.
  destruct (IH dates libor Hd Hl) as [A [D [R L]]].
  cbn [stream_of_columns]. unfold amounts, dayOffsets, referenceRates in *.
  cbn [map List.length amount dayOffset referenceRate].
  rewrite A, D, R, L. repeat split.
Qed.

Lemma length_firstn_le {A : Type} (n : nat) (l : list A) :
  (n <= List.length l)%nat -> List.length (firstn n l) = n.
Proof. intros H. rewrite length_firstn. lia. Qed.

Lemma backsolve_cf_firstn (cfs dates libor : list double) (num_cfs : Z)
    (target_px res : double) (max_tries : Z) (is_clean : bool)
    (accrued_interest year_convention : double) :
  backsolve_cf cfs dates libor num_cfs target_px res max_tries is_clean
    accrued_interest year_convention
  = backsolve_cf (firstn (Z.to_nat num_cfs) cfs) (firstn (Z.to_nat num_cfs) dates)
      (firstn (Z.to_nat num_cfs) libor) num_cfs target_px res max_tries is_clean
      accrued_interest year_convention.
Proof.
  unfold backsolve_cf, indices.
  rewrite (marshal_cf_ext cfs dates libor
             (firstn (Z.to_nat num_cfs) cfs) (firstn (Z.to_nat num_cfs) dates)
             (firstn (Z.to_nat num_cfs) libor)); [reflexivity|].
  intros i Hi. repeat split; apply rb_ary_entry_firstn; exact Hi.
Qed.

Lemma backsolve_irr_firstn (pow : double -> double -> double)
    (cfs dates : list double) (num_cfs : Z) (res : double) (max_tries : Z)
    (is_clean : bool) (accrued_interest : double) :
  backsolve_irr pow cfs dates num_cfs res max_tries is_clean accrued_interest
  = backsolve_irr pow (firstn (Z.to_nat num_cfs) cfs) (firstn (Z.to_nat num_cfs) dates)
      num_cfs res max_tries is_clean accrued_interest.
Proof.
  unfold backsolve_irr, indices.
  rewrite (marshal_irr_ext cfs dates
             (firstn (Z.to_nat num_cfs) cfs) (firstn (Z.to_nat num_cfs) dates));
    [reflexivity|].
  intros i Hi. split; apply rb_ary_entry_firstn; exact Hi.
Qed.

(** On arrays that hold at least [num_cfs] entries, with [num_cfs >= 1]:
    the date test on the first [num_cfs] day offsets decides between the
    date error and the core's result on the first [num_cfs] entries. *)
Lemma backsolve_cf_arrays (cfs dates libor : list double) (num_cfs : Z)
    (target_px res : double) (max_tries : Z) (is_clean : bool)
    (accrued_interest year_convention : double) :
  (1 <= num_cfs)%Z ->
  (Z.to_nat num_cfs <= List.length cfs)%nat ->
  (Z.to_nat num_cfs <= List.length dates)%nat ->
  (Z.to_nat num_cfs <= List.length libor)%nat ->
  backsolve_cf cfs dates libor num_cfs target_px res max_tries is_clean
    accrued_interest year_convention
  = if offsets_accepted 0 (firstn (Z.to_nat num_cfs) dates)
    then rb_of_c_result
           (_backsolve_cf (firstn (Z.to_nat num_cfs) cfs)
              (firstn (Z.to_nat num_cfs) dates) (firstn (Z.to_nat num_cfs) libor)
              num_cfs target_px res max_tries is_clean accrued_interest
              year_convention)
    else RbRaise eRuntimeError msg_dates.
Proof.
  intros Hn Lc Ld Ll. rewrite backsolve_cf_firstn.
  set (n := Z.to_nat num_cfs) in *.
  destruct (stream_of_columns_columns (firstn n cfs) (firstn n dates) (firstn n libor))
    as [A [D [R L]]]; [rewrite !length_firstn_le by assumption; reflexivity .. |].
  set (s := stream_of_columns (firstn n cfs) (firstn n dates) (firstn n libor)) in *.
  rewrite (length_firstn_le n cfs Lc) in L.
  assert (E : entries s = num_cfs) by (unfold entries; rewrite L; unfold n; lia).
  assert (Hs : s <> []).
  { intros Z. rewrite Z in L. simpl in L. unfold n in L. lia. }
  pose proof (backsolve_cf_stream s target_px res max_tries is_clean accrued_interest
                year_convention Hs) as B.
  rewrite A, D, R, E in B. exact B.
Qed.

Lemma backsolve_irr_arrays (pow : double -> double -> double)
    (cfs dates : list double) (num_cfs : Z) (res : double) (max_tries : Z)
    (is_clean : bool) (accrued_interest : double) :
  (1 <= num_cfs)%Z ->
  (Z.to_nat num_cfs <= List.length cfs)%nat ->
  (Z.to_nat num_cfs <= List.length dates)%nat ->
  backsolve_irr pow cfs dates num_cfs res max_tries is_clean accrued_interest
  = if offsets_accepted 0 (firstn (Z.to_nat num_cfs) dates)
    then rb_of_c_result
           (_backsolve_irr pow (firstn (Z.to_nat num_cfs) cfs)
              (firstn (Z.to_nat num_cfs) dates) num_cfs res max_tries is_clean
              accrued_interest)
    else RbRaise eRuntimeError msg_dates.
Proof.
  intros Hn Lc Ld. rewrite backsolve_irr_firstn.
  set (n := Z.to_nat num_cfs) in *.
  destruct (stream_of_columns_columns (firstn n cfs) (firstn n dates) (firstn n dates))
    as [A [D [_ L]]]; [rewrite !length_firstn_le by assumption; reflexivity .. |].
  set (s := stream_of_columns (firstn n cfs) (firstn n dates) (firstn n dates)) in *.
  rewrite (length_firstn_le n cfs Lc) in L.
  assert (E : entries s = num_cfs) by (unfold entries; rewrite L; unfold n; lia).
  assert (Hs : s <> []).
  { intros Z. rewrite Z in L. simpl in L. unfold n in L. lia. }
  pose proof (backsolve_irr_stream pow s res max_tries is_clean accrued_interest Hs)
    as B.
  rewrite A, D, E in B. exact B.
Qed.



Section EveryCall.
Variable pow : double -> double -> double.
Variables cfs dates libor : list double.
Variable num_cfs : Z.
Variables target_px res : double.
Variable max_tries : Z.
Variable is_clean : bool.
Variables accrued_interest year_convention : double.



End EveryCall.

(** * The revised claims *)



(** C7, amended.  Of the stated preconditions the exported functions check
    the shape of the stream, before the core runs.  For every call,
    [num_cfs < 1] raises the runtime error "valid array of cash flows must
    have at least one entry".  For every call with [num_cfs >= 1] whose
    arrays hold at least [num_cfs] entries: when the first [num_cfs] day
    offsets are numbers and are not strictly increasing from above 0, the
    runtime error "dates must contain a list of monotonically increasing
    values, starting at a value > 0" is raised, whatever the target,
    tolerance and cap; when they are strictly increasing from above 0, the
    call is the core's result on the first [num_cfs] entries for every
    tolerance and every cap, negative tolerances and caps below 1 included:
    those two are not checked.  Arrays shorter than [num_cfs] are left
    out. *)
Theorem boundary_checks_first_num_cfs_entries (pow : double -> double -> double)
    (cfs dates libor : list double) (num_cfs : Z) (target_px res : double)
    (max_tries : Z) (is_clean : bool) (accrued_interest year_convention : double) :
  let n := Z.to_nat num_cfs in
  let call_cf :=
    backsolve_cf cfs dates libor num_cfs target_px res max_tries is_clean
      accrued_interest year_convention in
  let call_irr :=
    backsolve_irr pow cfs dates num_cfs res max_tries is_clean accrued_interest in
  ((num_cfs < 1)%Z ->
   call_cf = RbRaise eRuntimeError msg_no_entry
   /\ call_irr = RbRaise eRuntimeError msg_no_entry)
  /\ ((1 <= num_cfs)%Z -> (n <= List.length cfs)%nat -> (n <= List.length dates)%nat ->
      (all_numbers (firstn n dates) = true ->
       strictly_increasing_from 0 (firstn n dates) = false ->
       call_irr = RbRaise eRuntimeError msg_dates
       /\ ((n <= List.length libor)%nat -> call_cf = RbRaise eRuntimeError msg_dates))
      /\ (strictly_increasing_from 0 (firstn n dates) = true ->
          call_irr
          = rb_of_c_result
              (_backsolve_irr pow (firstn n cfs) (firstn n dates) num_cfs res
                 max_tries is_clean accrued_interest)
          /\ ((n <= List.length libor)%nat ->
              call_cf
              = rb_of_c_result
                  (_backsolve_cf (firstn n cfs) (firstn n dates) (firstn n libor)
                     num_cfs target_px res max_tries is_clean accrued_interest
                     year_convention)))).
Proof.
  cbv zeta. split.
  - intros H. split;
      [apply backsolve_cf_no_entry | apply backsolve_irr_no_entry]; exact H.
  - intros Hn Lc Ld. split.
    + intros Hnum Hinc.
      pose proof (not_increasing_rejected _ 0 eq_refl Hnum Hinc) as Hrej. split.
      * rewrite (backsolve_irr_arrays pow cfs dates num_cfs res max_tries is_clean
                   accrued_interest Hn Lc Ld), Hrej. reflexivity.
      * intros Ll.
        rewrite (backsolve_cf_arrays cfs dates libor num_cfs target_px res max_tries
                   is_clean accrued_interest year_convention Hn Lc Ld Ll), Hrej.
        reflexivity.
    + intros Hinc. pose proof (increasing_accepted _ _ Hinc) as Hacc. split.
      * rewrite (backsolve_irr_arrays pow cfs dates num_cfs res max_tries is_clean
                   accrued_interest Hn Lc Ld), Hacc. reflexivity.
      * intros Ll.
        rewrite (backsolve_cf_arrays cfs dates libor num_cfs target_px res max_tries
                   is_clean accrued_interest year_convention Hn Lc Ld Ll), Hacc.
        reflexivity.
Qed.

Lemma boundary_checks_first_num_cfs_entries_witness :
  backsolve_cf [] [] [] 0 100 1e-6 10 false 0 365
  = RbRaise eRuntimeError msg_no_entry
  /\ backsolve_cf [100; 100; 9] [100; 100] [0; 0; 0; 0] 2 100 1e-6 10 false 0 365
     = RbRaise eRuntimeError msg_dates
  /\ backsolve_irr pow_whole [100; 100; 9] [100; 100] 2 1e-6 10 false 0
     = RbRaise eRuntimeError msg_dates
  /\ backsolve_cf [5; 105; 9] [365; 730; 1] [0; 0] 2 100 (-1) 0 false 0 365
     = rb_of_c_result (_backsolve_cf [5; 105] [365; 730] [0; 0] 2 100 (-1) 0 false 0 365).
Proof.
  split; [|split; [|split]].
  - apply (boundary_checks_first_num_cfs_entries pow_whole [] [] [] 0 100 1e-6 10
             false 0 365). lia.
  - destruct (boundary_checks_first_num_cfs_entries pow_whole
                [100; 100; 9] [100; 100] [0; 0; 0; 0] 2 100 1e-6 10 false 0 365)
      as [_ B].
    destruct B as [B _]; [lia | simpl; lia | simpl; lia |].
    destruct (B eq_refl eq_refl) as [_ B']. apply B'. simpl. lia.
  - destruct (boundary_checks_first_num_cfs_entries pow_whole
                [100; 100; 9] [100; 100] [0; 0; 0; 0] 2 100 1e-6 10 false 0 365)
      as [_ B].
    destruct B as [B _]; [lia | simpl; lia | simpl; lia |].
    exact (proj1 (B eq_refl eq_refl)).
  - destruct (boundary_checks_first_num_cfs_entries pow_whole
                [5; 105; 9] [365; 730; 1] [0; 0] 2 100 (-1) 0 false 0 365)
      as [_ B].
    destruct B as [_ B]; [lia | simpl; lia | simpl; lia |].
    destruct (B eq_refl) as [_ B']. apply B'. simpl. lia.
Defined.
